(** * prepare_bop_scene: scene file resolution and target aggregation

    A shallow embedding of [setup_scene_files_and_targets] from
    [prepare_bop_scene.py], together with the properties its specification
    states about it.

    The function has two stages.  The resolver walks the three standard
    artifact kinds (camera, gt, gt_info), copies a sensor-suffixed source
    onto its standard name where needed, and gives up when the ground-truth
    file cannot be had.  The aggregator loads the standard ground-truth
    file, counts the annotations of every (image, object) pair, and dumps
    the resulting target records into one JSON file.

    Modelling decisions, all spelled out where they are made:
    - a Python value obtained from [json.load] is a [pyval]; a [dict] is an
      association list in insertion order;
    - a [str] is given by its UTF-8 bytes, a lone surrogate (which a JSON
      escape can yield) by the three bytes of its code point;
    - [int(str)] is written after CPython's string-to-integer conversion:
      the text is first brought to an ASCII buffer, with the white space
      and the decimal digits of the interpreter's Unicode tables, and then
      read by [py_int];
    - the three warnings that print data of the ground-truth file succeed
      or raise as the standard output decides; the other messages print the
      program's own text and the command line's, and are taken to succeed;
    - an uncaught Python exception is a [Raise] result;
    - the file system is a finite map from path strings to nodes, threaded
      through the function explicitly;
    - [json.load] and [json.dump] belong to the Python runtime and are taken
      as operations of a [PyRuntime]. *)

From Stdlib Require Import ZArith NArith Bool Ascii String List Lia DecimalString.
From Stdlib Require DecimalN DecimalPos.
From stdpp Require Import base option list gmap strings.

Local Open Scope Z_scope.
Set Warnings "-register-all".

(** ** Python values *)

Module Py.

(** A [float]: NaN, an infinity, or the finite number [(-1)^neg * m * 2^e].
    Only equality of floats is ever used (as [Counter] keys), and equality
    of finite numbers is exact on this representation. *)
Inductive pyfloat : Type :=
| FNaN
| FInf (neg : bool)
| FFin (neg : bool) (m : N) (e : Z).

(** What [json.load] can return.  [PDict] lists the items of the [dict] in
    insertion order, which is the order [.items()] iterates in.  The
    [string] of a [str] holds its UTF-8 bytes, so two texts are equal when
    their strings are. *)
Inductive pyval : Type :=
| PNone
| PBool (b : bool)
| PInt (z : Z)
| PFloat (f : pyfloat)
| PStr (s : string)
| PList (l : list pyval)
| PDict (d : list (string * pyval)).

(** Exceptions that leave [setup_scene_files_and_targets] uncaught: the
    [TypeError] of an unhashable counter key, and what [print] raises when
    the standard output cannot take the text of a warning. *)
Inductive exn : Type :=
| TypeError_unhashable
| UnicodeEncodeError.

Inductive result (A : Type) : Type :=
| Ok (a : A)
| Raise (e : exn).
Arguments Ok {A} a.
Arguments Raise {A} e.

Definition bind {A B : Type} (r : result A) (k : A -> result B) : result B :=
  match r with
  | Ok a => k a
  | Raise e => Raise e
  end.

(** [isinstance(v, dict)] *)
Definition is_dict (v : pyval) : bool :=
  match v with PDict _ => true | _ => false end.

(** [hash(v)] raises [TypeError] exactly on lists and dicts. *)
Definition hashable (v : pyval) : bool :=
  match v with
  | PList _ | PDict _ => false
  | _ => true
  end.

(** Numbers compare by value across [bool], [int] and [float]. *)
Definition as_float (v : pyval) : option pyfloat :=
  match v with
  | PBool b => Some (FFin false (if b then 1%N else 0%N) 0)
  | PInt z => Some (FFin (z <? 0) (Z.abs_N z) 0)
  | PFloat f => Some f
  | _ => None
  end.

(** Key comparison of a [dict]: identity or [==].  The JSON decoder hands
    out one and the same NaN object for every [NaN] literal, so two NaN keys
    are found equal by identity. *)
Definition float_eqb (f g : pyfloat) : bool :=
  match f, g with
  | FNaN, FNaN => true
  | FInf a, FInf b => Bool.eqb a b
  | FFin s1 m1 e1, FFin s2 m2 e2 =>
      let e := Z.min e1 e2 in
      let a := Z.of_N m1 * 2 ^ (e1 - e) in
      let b := Z.of_N m2 * 2 ^ (e2 - e) in
      (a =? b) && ((a =? 0) || Bool.eqb s1 s2)
  | _, _ => false
  end.

Definition key_eqb (v w : pyval) : bool :=
  match v, w with
  | PNone, PNone => true
  | PStr a, PStr b => String.eqb a b
  | _, _ =>
      match as_float v, as_float w with
      | Some f, Some g => float_eqb f g
      | _, _ => false
      end
  end.

(** [k in d] and [d[k]] for a [dict] with string keys. *)
Fixpoint dict_get (k : string) (d : list (string * pyval)) : option pyval :=
  match d with
  | [] => None
  | (k', v) :: d' => if String.eqb k' k then Some v else dict_get k d'
  end.

(** *** [collections.Counter]

    Items in insertion order; [c[k] += 1] bumps the count of an existing key
    and appends a new key with count 1. *)
Definition Counter : Type := list (pyval * Z).

Fixpoint counter_incr (k : pyval) (c : Counter) : Counter :=
  match c with
  | [] => [(k, 1)]
  | (k', n) :: c' =>
      if key_eqb k' k then (k', n + 1) :: c' else (k', n) :: counter_incr k c'
  end.

(** *** [int(str)]

    [int] on a [str] takes two steps in CPython.  [PyLong_FromUnicodeObject]
    first brings the text to an ASCII buffer
    ([_PyUnicode_TransformDecimalAndSpaceToASCII]): a code point below 127
    is copied, any other white space becomes a blank and any other decimal
    digit its ASCII digit, and the buffer ends with a question mark at the
    first code point that is neither.  [PyLong_FromString] then reads the
    buffer in base 10: white space ([Py_ISSPACE], the code points 9-13 and
    32) is skipped on both sides, one sign is allowed, the digits may be
    separated by single underscores. *)

(** The code points of a text, from its UTF-8 bytes; [None] for bytes that
    are the text of no [str]. *)
Definition is_continuation (a : ascii) : bool :=
  let n := N_of_ascii a in ((128 <=? n) && (n <? 192))%N.

Definition continuation (a : ascii) : N := (N_of_ascii a - 128)%N.

Fixpoint code_points (l : list ascii) : option (list N) :=
  match l with
  | [] => Some []
  | a :: l1 =>
      let n := N_of_ascii a in
      if (n <? 128)%N then option_map (cons n) (code_points l1)
      else if ((194 <=? n) && (n <? 224))%N then
        match l1 with
        | b :: l2 =>
            if is_continuation b
            then option_map (cons ((n - 192) * 64 + continuation b)%N)
                            (code_points l2)
            else None
        | _ => None
        end
      else if ((224 <=? n) && (n <? 240))%N then
        match l1 with
        | b :: c :: l3 =>
            let cp := ((n - 224) * 4096 + continuation b * 64
                       + continuation c)%N in
            if is_continuation b && is_continuation c && (2048 <=? cp)%N
            then option_map (cons cp) (code_points l3)
            else None
        | _ => None
        end
      else if ((240 <=? n) && (n <? 245))%N then
        match l1 with
        | b :: c :: d :: l4 =>
            let cp := ((n - 240) * 262144 + continuation b * 4096
                       + continuation c * 64 + continuation d)%N in
            if is_continuation b && is_continuation c && is_continuation d
               && (65536 <=? cp)%N && (cp <=? 1114111)%N
            then option_map (cons cp) (code_points l4)
            else None
        | _ => None
        end
      else None
  end.

(** [Py_UNICODE_ISSPACE] and [Py_UNICODE_TODECIMAL] come from the Unicode
    tables of the interpreter, which grow from one version to the next:
    they are arguments here. *)
Fixpoint transform_decimal_and_space (isspace : N -> bool)
    (todecimal : N -> option N) (l : list N) : list ascii :=
  match l with
  | [] => []
  | ch :: l' =>
      if (ch <? 127)%N then
        ascii_of_N ch :: transform_decimal_and_space isspace todecimal l'
      else if isspace ch then
        " "%char :: transform_decimal_and_space isspace todecimal l'
      else
        match todecimal ch with
        | Some d =>
            if (d <? 10)%N
            then ascii_of_N (48 + d)
                 :: transform_decimal_and_space isspace todecimal l'
            else ["?"%char]
        | None => ["?"%char]
        end
  end.

(** [Py_ISSPACE] *)
Definition is_space (a : ascii) : bool :=
  let n := nat_of_ascii a in
  ((9 <=? n) && (n <=? 13) || (n =? 32))%nat.

Definition is_digit (a : ascii) : bool :=
  let n := nat_of_ascii a in ((48 <=? n) && (n <=? 57))%nat.

Definition is_underscore (a : ascii) : bool :=
  (nat_of_ascii a =? 95)%nat.

Definition digit_value (a : ascii) : Z := Z.of_nat (nat_of_ascii a - 48).

Fixpoint skip_spaces (l : list ascii) : list ascii :=
  match l with
  | a :: l' => if is_space a then skip_spaces l' else l
  | [] => []
  end.

(** The scan over digits and underscores: [prev_us] tells whether the
    previous character was an underscore, [acc] is the value read so far
    and [digits] the number of digit characters.  [None] is the scanner's
    error exit (two underscores in a row, or one at the end). *)
Fixpoint scan_digits (l : list ascii) (prev_us : bool) (acc : Z) (digits : nat)
  : option (Z * nat * list ascii) :=
  match l with
  | a :: l' =>
      if is_underscore a then
        if prev_us then None else scan_digits l' true acc digits
      else if is_digit a then
        scan_digits l' false (10 * acc + digit_value a) (S digits)
      else if prev_us then None else Some (acc, digits, l)
  | [] => if prev_us then None else Some (acc, digits, [])
  end.

(** [_PY_LONG_MAX_STR_DIGITS_THRESHOLD] *)
Definition max_str_digits_threshold : nat := 640.

(** [max_str_digits] is [sys.get_int_max_str_digits()]: 0 switches the limit
    off (and stands for the interpreters that have none). *)
Definition py_int_list (max_str_digits : nat) (l : list ascii) : option Z :=
  let l := skip_spaces l in
  let '(neg, l) :=
    match l with
    | a :: l' =>
        if (nat_of_ascii a =? 43)%nat then (false, l')
        else if (nat_of_ascii a =? 45)%nat then (true, l')
        else (false, l)
    | [] => (false, l)
    end in
  match l with
  | [] => None
  | a :: _ =>
      if is_underscore a then None
      else
        match scan_digits l false 0 0 with
        | None => None
        | Some (n, digits, rest) =>
            if (digits =? 0)%nat then None
            else if ((max_str_digits_threshold <? digits)
                     && (0 <? max_str_digits)
                     && (max_str_digits <? digits))%nat then None
            else
              match skip_spaces rest with
              | [] => Some (if neg then - n else n)
              | _ :: _ => None
              end
        end
  end.

(** [PyLong_FromString] on a buffer: this is [int(s)] for a text of code
    points below 127, which is its own buffer. *)
Definition py_int (max_str_digits : nat) (s : string) : option Z :=
  py_int_list max_str_digits (list_ascii_of_string s).

(** [PyUnicode_IS_ASCII] *)
Definition is_ascii_text (l : list ascii) : bool :=
  forallb (fun a => (N_of_ascii a <? 128)%N) l.

(** [int(s)] for any text: an ASCII text is read as it is, any other one
    through its buffer. *)
Definition py_int_text (isspace : N -> bool) (todecimal : N -> option N)
    (max_str_digits : nat) (s : string) : option Z :=
  let l := list_ascii_of_string s in
  if is_ascii_text l then py_int_list max_str_digits l
  else
    match code_points l with
    | Some chs =>
        py_int_list max_str_digits
          (transform_decimal_and_space isspace todecimal chs)
    | None => None
    end.

End Py.


(** ** Target records and the Python runtime *)

Import Py.

(** One entry of the targets file:
    [{"scene_id": .., "im_id": .., "obj_id": .., "inst_count": ..}]. *)
Record target : Type := mk_target {
  scene_id : Z;
  im_id : Z;
  obj_id : pyval;
  inst_count : Z
}.

(** The warnings that print what the ground-truth file holds, with the
    data they print. *)
Inductive warning : Type :=
| KeyIsNoInteger (im_id_str : string)                               (* line 95 *)
| AnnotationsAreNoList (im_id_str : string) (gt_annotations : pyval) (* line 99 *)
| InvalidAnnotation (im_id_str : string) (ann : pyval).            (* line 107 *)

(** The pieces of the interpreter and its library the function calls into
    and which are not modelled further: the integer-string digit limit, the
    Unicode tables of white space and decimal digits, whether the standard
    output takes the text of a warning ([print] raises when it does not),
    [json.load] on the text of a file ([None] when it raises) and
    [json.dump(targets, f, indent=2)]. *)
Class PyRuntime : Type := {
  int_max_str_digits : nat;
  unicode_isspace : N -> bool;
  unicode_todecimal : N -> option N;
  stdout_accepts : warning -> bool;
  json_load : string -> option pyval;
  json_dump : list target -> string
}.

(** ** Paths and the file system *)

Module FS.

(** [os.path] for POSIX.  A path is the string the program builds. *)
Definition is_sep (a : ascii) : bool := (nat_of_ascii a =? 47)%nat.

Definition starts_with_sep (p : string) : bool :=
  match p with
  | String a _ => is_sep a
  | EmptyString => false
  end.

Fixpoint ends_with_sep (p : string) : bool :=
  match p with
  | EmptyString => false
  | String a EmptyString => is_sep a
  | String _ p' => ends_with_sep p'
  end.

(** The separator [os.path.join] puts between [a] and a relative [b]. *)
Definition join_sep (a : string) : string :=
  if String.eqb a "" || ends_with_sep a then "" else "/".

(** [os.path.join(a, b)] *)
Definition path_join (a b : string) : string :=
  if starts_with_sep b then b else a +:+ join_sep a +:+ b.

(** [(p[:i], p[i:])] for [i = p.rfind('/') + 1]. *)
Fixpoint cut_at_last_sep (p : string) : string * string :=
  match p with
  | EmptyString => (EmptyString, EmptyString)
  | String a p' =>
      let '(h, t) := cut_at_last_sep p' in
      if negb (String.eqb h "") then (String a h, t)
      else if is_sep a then (String a EmptyString, t)
      else (EmptyString, String a t)
  end.

Fixpoint all_seps (p : string) : bool :=
  match p with
  | EmptyString => true
  | String a p' => is_sep a && all_seps p'
  end.

(** [p.rstrip('/')] *)
Fixpoint rstrip_seps (p : string) : string :=
  match p with
  | EmptyString => EmptyString
  | String a p' => if all_seps p then EmptyString else String a (rstrip_seps p')
  end.

(** [os.path.basename] and [os.path.dirname] *)
Definition basename (p : string) : string := snd (cut_at_last_sep p).

Definition dirname (p : string) : string :=
  let h := fst (cut_at_last_sep p) in
  if all_seps h then h else rstrip_seps h.

(** A path names a regular file with its text, or a directory.  Path
    strings are the identities of files: there are no links, and two
    spellings of one path are two paths.  The only failures of an operation
    are those the shape of the file system causes. *)
Inductive node : Type :=
| File (content : string)
| Dir.

(** [os.path.exists] and [os.path.isdir] *)
Definition exists_ (fs : gmap string node) (p : string) : bool :=
  match fs !! p with Some _ => true | None => false end.

Definition isdir (fs : gmap string node) (p : string) : bool :=
  match fs !! p with Some Dir => true | _ => false end.

(** Where [shutil.copy2(src, dst)] writes: into [dst] when it is a
    directory. *)
Definition copy_target (fs : gmap string node) (src dst : string) : string :=
  if isdir fs dst then path_join dst (basename src) else dst.

(** [shutil.copy2(src, dst)]; [None] when it raises.  The source must be a
    regular file and differ from the target, which must not be a
    directory. *)
Definition copy2 (fs : gmap string node) (src dst : string)
  : option (gmap string node) :=
  let tgt := copy_target fs src dst in
  match fs !! src with
  | Some (File c) =>
      if String.eqb src tgt then None
      else if isdir fs tgt then None
      else Some (<[tgt := File c]> fs)
  | _ => None
  end.

(** [open(p, 'r').read()] *)
Definition read_text (fs : gmap string node) (p : string) : option string :=
  match fs !! p with Some (File c) => Some c | _ => None end.

(** The directories [os.makedirs(d)] needs: every non-empty prefix of [d]
    that stops in front of a separator and does not end in one, and [d]. *)
Fixpoint dir_chain (done todo : string) : list string :=
  match todo with
  | EmptyString => [done]
  | String a todo' =>
      let here :=
        if is_sep a && negb (String.eqb done "") && negb (ends_with_sep done)
        then [done] else [] in
      here ++ dir_chain (done +:+ String a EmptyString) todo'
  end.

Definition is_file (fs : gmap string node) (p : string) : bool :=
  match fs !! p with Some (File _) => true | _ => false end.

(** [os.makedirs(d, exist_ok=True)]: fails on the empty path and when a
    regular file stands where a directory is needed. *)
Definition makedirs (fs : gmap string node) (d : string)
  : option (gmap string node) :=
  if String.eqb d "" then None
  else if all_seps d then Some fs
  else
    let chain := dir_chain "" d in
    if existsb (is_file fs) chain then None
    else Some (fold_right (fun p m => <[p := Dir]> m) fs chain).

(** [open(p, 'w')] followed by writing [text]. *)
Definition write_text (fs : gmap string node) (p text : string)
  : option (gmap string node) :=
  if String.eqb (basename p) "" then None
  else if isdir fs p then None
  else Some (<[p := File text]> fs).

End FS.

(** ** The aggregation loop (source lines 86-115) *)

Module Aggregator.

Section WithRuntime.
Context `{RT : PyRuntime}.

(** [int(im_id_str)], [None] standing for [ValueError]. *)
Definition int_of_key (im_id_str : string) : option Z :=
  py_int_text unicode_isspace unicode_todecimal int_max_str_digits im_id_str.

(** [print] of a warning: nothing catches what it raises. *)
Definition print (w : warning) : result unit :=
  if stdout_accepts w then Ok tt else Raise UnicodeEncodeError.

(** The inner loop over [gt_annotations], lines 103-107.  Indexing the
    counter with an unhashable [obj_id] raises [TypeError], and the warning
    for an annotation that does not count may raise in [print]; nothing
    catches either. *)
Fixpoint count_annotations (im_id_str : string) (gt_annotations : list pyval)
    (obj_counts_in_image : Counter) : result Counter :=
  match gt_annotations with
  | [] => Ok obj_counts_in_image
  | ann :: rest =>
      let invalid :=
        match print (InvalidAnnotation im_id_str ann) with
        | Ok _ => count_annotations im_id_str rest obj_counts_in_image
        | Raise e => Raise e
        end in
      match ann with
      | PDict d =>
          match dict_get "obj_id" d with
          | Some o =>
              if hashable o
              then count_annotations im_id_str rest
                     (counter_incr o obj_counts_in_image)
              else Raise TypeError_unhashable
          | None => invalid
          end
      | _ => invalid
      end
  end.

(** Lines 109-115: one record per item of the counter, in its order. *)
Definition counter_targets (scene_id_int im_id_int : Z) (c : Counter)
  : list target :=
  map (fun kv => mk_target scene_id_int im_id_int (fst kv) (snd kv)) c.

(** The outer loop over [scene_gt_data.items()], lines 91-115, with the
    list [targets] it appends to.  The warning of line 95 is printed in the
    handler of [ValueError], that of line 99 outside of any [try]. *)
Fixpoint targets_loop (scene_id_int : Z) (items : list (string * pyval))
    (targets : list target) : result (list target) :=
  match items with
  | [] => Ok targets
  | (im_id_str, gt_annotations) :: rest =>
      match int_of_key im_id_str with
      | None =>
          match print (KeyIsNoInteger im_id_str) with
          | Ok _ => targets_loop scene_id_int rest targets
          | Raise e => Raise e
          end
      | Some im_id_int =>
          match gt_annotations with
          | PList anns =>
              match count_annotations im_id_str anns [] with
              | Ok c =>
                  targets_loop scene_id_int rest
                    (targets ++ counter_targets scene_id_int im_id_int c)
              | Raise e => Raise e
              end
          | _ =>
              match print (AnnotationsAreNoList im_id_str gt_annotations) with
              | Ok _ => targets_loop scene_id_int rest targets
              | Raise e => Raise e
              end
          end
      end
  end.

(** What lines 86-115 leave in [targets]. *)
Inductive aggregation : Type :=
| NotADict
| Uncaught (e : exn)
| Targets (targets : list target).

Definition aggregate (scene_id_int : Z) (scene_gt_data : pyval) : aggregation :=
  match scene_gt_data with
  | PDict items =>
      match targets_loop scene_id_int items [] with
      | Ok targets => Targets targets
      | Raise e => Uncaught e
      end
  | _ => NotADict
  end.

(** The records one item of the mapping adds to [targets]. *)
Definition entry_targets (scene_id_int : Z) (entry : string * pyval)
  : result (list target) :=
  match int_of_key (fst entry) with
  | None => bind (print (KeyIsNoInteger (fst entry))) (fun _ => Ok [])
  | Some im_id_int =>
      match snd entry with
      | PList anns =>
          bind (count_annotations (fst entry) anns [])
               (fun c => Ok (counter_targets scene_id_int im_id_int c))
      | _ =>
          bind (print (AnnotationsAreNoList (fst entry) (snd entry)))
               (fun _ => Ok [])
      end
  end.

(** An annotation the inner loop counts: a dict with an ["obj_id"] key. *)
Definition valid_annotation (ann : pyval) : bool :=
  match ann with
  | PDict d => match dict_get "obj_id" d with Some _ => true | None => false end
  | _ => false
  end.

Fixpoint count_valid (anns : list pyval) : Z :=
  match anns with
  | [] => 0
  | ann :: rest => (if valid_annotation ann then 1 else 0) + count_valid rest
  end.

Definition counter_total (c : Counter) : Z :=
  fold_right Z.add 0 (map snd c).

Definition sum_inst_count (l : list target) : Z :=
  fold_right Z.add 0 (map inst_count l).

(** An annotation whose ["obj_id"], if any, can key a counter. *)
Definition hashable_annotation (ann : pyval) : bool :=
  match ann with
  | PDict d =>
      match dict_get "obj_id" d with Some o => hashable o | None => true end
  | _ => true
  end.

(** An annotation the inner loop counts, or one whose warning the standard
    output takes. *)
Definition reportable_annotation (im_id_str : string) (ann : pyval) : bool :=
  valid_annotation ann || stdout_accepts (InvalidAnnotation im_id_str ann).

(** The warning, if any, with which the loop passes over an item without
    looking at its annotations. *)
Definition skip_warning (entry : string * pyval) : option warning :=
  match int_of_key (fst entry), snd entry with
  | None, _ => Some (KeyIsNoInteger (fst entry))
  | Some _, PList _ => None
  | Some _, v => Some (AnnotationsAreNoList (fst entry) v)
  end.

(** [t] stands for an (image, object) pair that was seen: some item of the
    mapping with image id [im_id t] holds an annotation whose ["obj_id"] is
    [obj_id t]. *)
Definition observed (scene_id_int : Z) (items : list (string * pyval))
    (t : target) : Prop :=
  scene_id t = scene_id_int /\
  exists im_id_str anns d,
    In (im_id_str, PList anns) items /\
    int_of_key im_id_str = Some (im_id t) /\
    In (PDict d) anns /\
    dict_get "obj_id" d = Some (obj_id t).

End WithRuntime.
End Aggregator.
(** ** The whole function *)

Module Scene.
Import FS Aggregator.

(** [f"{n:06d}"]: decimal digits, zero padded to width 6, the sign taking
    one place. *)
Definition decimal (n : N) : string :=
  DecimalString.NilEmpty.string_of_uint (N.to_uint n).

Fixpoint zeros (k : nat) : string :=
  match k with
  | O => EmptyString
  | S k' => String "0" (zeros k')
  end.

Definition format_06d (n : Z) : string :=
  let ds := decimal (Z.abs_N n) in
  if n <? 0 then "-" +:+ zeros (5 - String.length ds) +:+ ds
  else zeros (6 - String.length ds) +:+ ds.

(** The dict of line 26, in its order. *)
Definition standard_files_to_prepare : list (string * string) :=
  [("camera", "scene_camera.json");
   ("gt", "scene_gt.json");
   ("gt_info", "scene_gt_info.json")].

(** Every way the function ends. *)
Inductive outcome : Type :=
| SceneMissing                                (* return of line 18 *)
| GtMissing                                   (* return of line 51 *)
| GtCopyFailed                                (* return of line 62 *)
| GtUnavailable                               (* return of line 73 *)
| LoadFailed                                  (* return of line 84 *)
| GtNotADict                                  (* return of line 89 *)
| Crashed (e : exn)                           (* uncaught exception *)
| WriteFailed (targets : list target)         (* handler of line 129 *)
| Written (path : string) (targets : list target).    (* line 127 *)

(** The state of the resolver's loop: the file system, the flag
    [gt_file_successfully_prepared] and the copies made so far (source,
    destination), latest first. *)
Record rstate : Type := mk_rstate {
  r_fs : gmap string node;
  r_gt_prepared : bool;
  r_copies : list (string * string)
}.

Inductive step : Type :=
| Next (st : rstate)
| Return (o : outcome) (st : rstate).

(** What one turn of the resolver's loop did to the state: nothing, a flag
    set, or one copy. *)
Inductive turn (src dst : string) (st st' : rstate) : Prop :=
| turn_skip : st' = st -> turn src dst st st'
| turn_in_place :
    r_fs st' = r_fs st -> r_copies st' = r_copies st ->
    turn src dst st st'
| turn_copy c :
    r_fs st !! src = Some (File c) ->
    r_fs st' = <[copy_target (r_fs st) src dst := File c]> (r_fs st) ->
    r_copies st' = (src, dst) :: r_copies st ->
    turn src dst st st'.

Definition nonempty (s : string) : bool := negb (String.eqb s "").

Definition src_name_with_suffix (key sensor_suffix : string) : string :=
  "scene_" +:+ key +:+ "_" +:+ sensor_suffix +:+ ".json".

Definition actual_src_name (key std_name sensor_suffix : string) : string :=
  if nonempty sensor_suffix then src_name_with_suffix key sensor_suffix
  else std_name.

(** The body of the loop of line 34 for one [(key, std_name)]. *)
Definition prepare_file (scene_path sensor_suffix key std_name : string)
    (st : rstate) : step :=
  let actual_src_path :=
    path_join scene_path (actual_src_name key std_name sensor_suffix) in
  let dst_path := path_join scene_path std_name in
  if negb (exists_ (r_fs st) actual_src_path) then
    if String.eqb key "gt" && negb (exists_ (r_fs st) dst_path)
    then Return GtMissing st
    else Next st
  else if negb (String.eqb actual_src_path dst_path) then
    match copy2 (r_fs st) actual_src_path dst_path with
    | Some fs' =>
        Next (mk_rstate fs'
                (if String.eqb key "gt" then true else r_gt_prepared st)
                ((actual_src_path, dst_path) :: r_copies st))
    | None =>
        if String.eqb key "gt" then Return GtCopyFailed st else Next st
    end
  else
    Next (mk_rstate (r_fs st)
            (if String.eqb key "gt" then true else r_gt_prepared st)
            (r_copies st)).

Fixpoint prepare_loop (scene_path sensor_suffix : string)
    (files : list (string * string)) (st : rstate) : step :=
  match files with
  | [] => Next st
  | (key, std_name) :: rest =>
      match prepare_file scene_path sensor_suffix key std_name st with
      | Next st' => prepare_loop scene_path sensor_suffix rest st'
      | Return o st' => Return o st'
      end
  end.

Definition final_gt_file_for_targets (scene_path : string) : string :=
  path_join scene_path "scene_gt.json".

(** Lines 26-73: the loop and the check after it. *)
Definition resolve (scene_path sensor_suffix : string)
    (fs : gmap string node) : step :=
  match prepare_loop scene_path sensor_suffix standard_files_to_prepare
          (mk_rstate fs false []) with
  | Next st =>
      if negb (exists_ (r_fs st) (final_gt_file_for_targets scene_path))
         && negb (r_gt_prepared st)
      then Return GtUnavailable st
      else Next st
  | Return o st => Return o st
  end.

Section WithRuntime.
Context `{RT : PyRuntime}.

(** Lines 79-84: [json.load] of the text of the file, [None] for any
    exception. *)
Definition load_gt (fs : gmap string node) (path : string) : option pyval :=
  match read_text fs path with
  | Some text => json_load text
  | None => None
  end.

(** Lines 120-130. *)
Definition save_targets (fs : gmap string node) (output_targets_path : string)
    (targets : list target) : outcome * gmap string node :=
  match makedirs fs (dirname output_targets_path) with
  | None => (WriteFailed targets, fs)
  | Some fs1 =>
      match write_text fs1 output_targets_path (json_dump targets) with
      | None => (WriteFailed targets, fs1)
      | Some fs2 => (Written output_targets_path targets, fs2)
      end
  end.

(** Lines 76-130: everything after the resolver. *)
Definition generate_targets (fs : gmap string node)
    (gt_path output_targets_path : string) (scene_id_int : Z)
  : outcome * gmap string node :=
  match load_gt fs gt_path with
  | None => (LoadFailed, fs)
  | Some scene_gt_data =>
      match aggregate scene_id_int scene_gt_data with
      | NotADict => (GtNotADict, fs)
      | Uncaught e => (Crashed e, fs)
      | Targets targets => save_targets fs output_targets_path targets
      end
  end.

(** The aggregation of the file at [path], when it loads. *)
Definition aggregate_file (scene_id_int : Z) (fs : gmap string node)
    (path : string) : option aggregation :=
  option_map (aggregate scene_id_int) (load_gt fs path).

Definition scene_path_of (dataset_root dataset_name split : string)
    (scene_id_int : Z) : string :=
  path_join (path_join (path_join dataset_root dataset_name) split)
            (format_06d scene_id_int).

Definition output_targets_path_of
    (dataset_root dataset_name output_targets_filename : string) : string :=
  path_join (path_join dataset_root dataset_name) output_targets_filename.

(** [setup_scene_files_and_targets]: how the call ends, the file system
    it leaves and the copies it made. *)
Definition setup_scene_files_and_targets (fs : gmap string node)
    (dataset_root dataset_name split : string) (scene_id_int : Z)
    (sensor_suffix output_targets_filename : string)
  : outcome * gmap string node * list (string * string) :=
  let scene_path := scene_path_of dataset_root dataset_name split scene_id_int in
  if negb (isdir fs scene_path) then (SceneMissing, fs, [])
  else
    match resolve scene_path sensor_suffix fs with
    | Return o st => (o, r_fs st, r_copies st)
    | Next st =>
        let '(o, fs') :=
          generate_targets (r_fs st) (final_gt_file_for_targets scene_path)
            (output_targets_path_of dataset_root dataset_name
               output_targets_filename)
            scene_id_int in
        (o, fs', r_copies st)
    end.

End WithRuntime.
End Scene.

(** ** A runtime and file systems for the examples *)

Module Samples.
Import FS Aggregator Scene.

Definition dq : string := String (ascii_of_nat 34) EmptyString.
Definition nl : string := String (ascii_of_nat 10) EmptyString.

Definition print_Z (z : Z) : string :=
  if z <? 0 then "-" +:+ decimal (Z.abs_N z) else decimal (Z.abs_N z).

(** Object ids as JSON prints them, for the ids the examples use: integers,
    booleans, null and plain strings. *)
Definition print_obj_id (v : pyval) : string :=
  match v with
  | PInt z => print_Z z
  | PBool true => "true"
  | PBool false => "false"
  | PStr s => dq +:+ s +:+ dq
  | _ => "null"
  end.

Definition print_member (name value : string) (last : bool) : string :=
  "    " +:+ dq +:+ name +:+ dq +:+ ": " +:+ value
  +:+ (if last then "" else ",") +:+ nl.

Definition print_target (t : target) : string :=
  "  {" +:+ nl
  +:+ print_member "scene_id" (print_Z (scene_id t)) false
  +:+ print_member "im_id" (print_Z (im_id t)) false
  +:+ print_member "obj_id" (print_obj_id (obj_id t)) false
  +:+ print_member "inst_count" (print_Z (inst_count t)) true
  +:+ "  }".

Fixpoint print_targets (l : list target) : string :=
  match l with
  | [] => ""
  | [t] => print_target t +:+ nl
  | t :: l' => print_target t +:+ "," +:+ nl +:+ print_targets l'
  end.

Definition sample_dump (l : list target) : string :=
  match l with
  | [] => "[]"
  | _ => "[" +:+ nl +:+ print_targets l +:+ "]"
  end.

Definition ann (o : pyval) : pyval := PDict [("obj_id", o)].

(** The mapping of the specification's first example. *)
Definition gt_example : pyval :=
  PDict [("0", PList [ann (PInt 5); ann (PInt 5); ann (PInt 7)]);
         ("1", PList [])].

Definition gt_example_text : string :=
  "{" +:+ dq +:+ "0" +:+ dq +:+ ": [{" +:+ dq +:+ "obj_id" +:+ dq +:+ ":5},{"
  +:+ dq +:+ "obj_id" +:+ dq +:+ ":5},{" +:+ dq +:+ "obj_id" +:+ dq
  +:+ ":7}], " +:+ dq +:+ "1" +:+ dq +:+ ": []}".

(** [json.load] on the texts the examples store in files. *)
Definition sample_load (text : string) : option pyval :=
  if String.eqb text gt_example_text then Some gt_example
  else if String.eqb text "{}" then Some (PDict [])
  else if String.eqb text "[]" then Some (PList [])
  else if String.eqb text "7" then Some (PInt 7)
  else None.

(** White space above the ASCII range, as [str.isspace] has it. *)
Definition sample_isspace (ch : N) : bool :=
  ((ch =? 133) || (ch =? 160) || (ch =? 5760)
   || (8192 <=? ch) && (ch <=? 8202)
   || (ch =? 8232) || (ch =? 8233) || (ch =? 8239) || (ch =? 8287)
   || (ch =? 12288))%N.

(** The decimal digits of a few scripts (Arabic-Indic, Devanagari,
    fullwidth); the tables of an interpreter hold more. *)
Definition sample_todecimal (ch : N) : option N :=
  if ((1632 <=? ch) && (ch <=? 1641))%N then Some (ch - 1632)%N
  else if ((2406 <=? ch) && (ch <=? 2415))%N then Some (ch - 2406)%N
  else if ((65296 <=? ch) && (ch <=? 65305))%N then Some (ch - 65296)%N
  else None.

(** A standard output in UTF-8 with strict error handling, the default: it
    takes every text but one with a lone surrogate.  A warning prints the
    key as it is and the value through [str]: a string as it is, any other
    value in its [repr], which escapes surrogates. *)
Definition is_surrogate (ch : N) : bool := ((55296 <=? ch) && (ch <=? 57343))%N.

Definition has_surrogate (s : string) : bool :=
  match code_points (list_ascii_of_string s) with
  | Some chs => existsb is_surrogate chs
  | None => false
  end.

Definition str_has_surrogate (v : pyval) : bool :=
  match v with
  | PStr s => has_surrogate s
  | _ => false
  end.

Definition sample_stdout (w : warning) : bool :=
  match w with
  | KeyIsNoInteger k => negb (has_surrogate k)
  | AnnotationsAreNoList k v => negb (has_surrogate k || str_has_surrogate v)
  | InvalidAnnotation k a => negb (has_surrogate k || str_has_surrogate a)
  end.

Definition sample_runtime : PyRuntime :=
  {| int_max_str_digits := 4300;
     unicode_isspace := sample_isspace;
     unicode_todecimal := sample_todecimal;
     stdout_accepts := sample_stdout;
     json_load := sample_load;
     json_dump := sample_dump |}.

(** The text of the one code point U+D800, a lone surrogate: what
    [json.load] makes of the escape [\ud800]. *)
Definition lone_surrogate : string :=
  String (ascii_of_nat 237)
    (String (ascii_of_nat 160) (String (ascii_of_nat 128) EmptyString)).


(** The Arabic-Indic digits one and two, U+0661 and U+0662. *)
Definition arabic_twelve : string :=
  String (ascii_of_nat 217) (String (ascii_of_nat 161)
    (String (ascii_of_nat 217) (String (ascii_of_nat 162) EmptyString))).

(** A mapping with a key that is no integer. *)
Definition gt_with_bad_key : list (string * pyval) :=
  [("0", PList [ann (PInt 5)]); ("abc", PList [ann (PInt 9)]);
   ("2", PList [ann (PInt 7); ann (PInt 7)])].

(** A mapping with a key that is no integer and cannot be printed. *)
Definition gt_with_surrogate_key : list (string * pyval) :=
  [("0", PList [ann (PInt 5)]); (lone_surrogate, PList [ann (PInt 9)]);
   ("2", PList [ann (PInt 7); ann (PInt 7)])].

(** A mapping with an object id that cannot be hashed. *)
Definition gt_unhashable : pyval :=
  PDict [("0", PList [ann (PList [PInt 1])])].

(** A mapping with a negative image key. *)
Definition gt_negative_key : pyval :=
  PDict [("-3", PList [ann (PInt 5)])].

(** The scene directory of the examples and the paths in it. *)
Definition sample_scene : string := "/d/ipd/test/000004".

(** Sensor files only: nothing has a standard name yet. *)
Definition fs_suffixed : gmap string node :=
  <["/d/ipd/test/000004" := Dir]>
  (<["/d/ipd/test/000004/scene_camera_cam1.json" := File "{}"]>
  (<["/d/ipd/test/000004/scene_gt_cam1.json" := File gt_example_text]> ∅)).

(** A camera file for the sensor and an older standard camera file, but no
    ground truth under either name. *)
Definition fs_no_gt : gmap string node :=
  <["/d/ipd/test/000004" := Dir]>
  (<["/d/ipd/test/000004/scene_camera_cam1.json" := File "{}"]>
  (<["/d/ipd/test/000004/scene_camera.json" := File "[]"]> ∅)).

(** A standard ground-truth file that was there before, and no ground truth
    for the sensor. *)
Definition fs_stale_gt : gmap string node :=
  <["/d/ipd/test/000004" := Dir]>
  (<["/d/ipd/test/000004/scene_camera_cam1.json" := File "{}"]>
  (<["/d/ipd/test/000004/scene_gt.json" := File gt_example_text]> ∅)).

(** The three standard files, the ground truth holding a JSON array. *)
Definition fs_standard : gmap string node :=
  <["/d/ipd/test/000004" := Dir]>
  (<["/d/ipd/test/000004/scene_camera.json" := File "{}"]>
  (<["/d/ipd/test/000004/scene_gt.json" := File "[]"]>
  (<["/d/ipd/test/000004/scene_gt_info.json" := File "{}"]> ∅))).

(** Annotations of one image with equal ids of different types (5 and 5.0,
    true and 1), a repeated string and two annotations that do not count. *)
Definition mixed_annotations : list pyval :=
  [ann (PInt 5); ann (PStr "a"); ann (PFloat (FFin false 5 0));
   PDict [("cam_R_m2c", PNone)]; ann (PBool true); PInt 3; ann (PInt 1);
   ann (PStr "a"); ann (PFloat (FFin false 5 0))].

End Samples.

(** ** What the loops compute, said without a counter *)

Module Reference.
Import Aggregator.

(** [isinstance(v, list)] *)
Definition is_list (v : pyval) : bool :=
  match v with PList _ => true | _ => false end.

(** [c[k]] of a [Counter]: the count under the key equal to [k], 0 without
    one. *)
Fixpoint counter_get (k : pyval) (c : Counter) : Z :=
  match c with
  | [] => 0
  | (k', n) :: c' => if key_eqb k' k then n else counter_get k c'
  end.

(** The ["obj_id"] values of the annotations the inner loop counts, in the
    order of the list. *)
Fixpoint valid_ids (anns : list pyval) : list pyval :=
  match anns with
  | [] => []
  | PDict d :: rest =>
      match dict_get "obj_id" d with
      | Some o => o :: valid_ids rest
      | None => valid_ids rest
      end
  | _ :: rest => valid_ids rest
  end.

(** How many of the ids equal [o] as Python compares keys. *)
Fixpoint occurrences (o : pyval) (ids : list pyval) : Z :=
  match ids with
  | [] => 0
  | o' :: rest => (if key_eqb o' o then 1 else 0) + occurrences o rest
  end.

(** The ids with every repetition after the first one removed: an id stays
    when none of the ids [seen] before it equals it. *)
Fixpoint first_seen (seen ids : list pyval) : list pyval :=
  match ids with
  | [] => []
  | o :: rest =>
      if existsb (fun s => key_eqb s o) seen
      then first_seen (seen ++ [o]) rest
      else o :: first_seen (seen ++ [o]) rest
  end.

(** The records of one image, from its id and its annotations. *)
Definition image_records (scene_id_int im_id_int : Z) (anns : list pyval)
  : list target :=
  map (fun o => mk_target scene_id_int im_id_int o
                  (occurrences o (valid_ids anns)))
      (first_seen [] (valid_ids anns)).

(** The keys of a counter are hashable and no two of them are equal. *)
Fixpoint counter_wf (c : Counter) : Prop :=
  match c with
  | [] => True
  | (k, _) :: c' =>
      hashable k = true /\
      (forall kv, In kv c' -> key_eqb k (fst kv) = false) /\
      counter_wf c'
  end.

Section WithRuntime.
Context `{RT : PyRuntime}.

(** The first exception, if any, that [f] finds going through [l]. *)
Fixpoint first_failure {A : Type} (f : A -> option exn) (l : list A)
  : option exn :=
  match l with
  | [] => None
  | a :: l' =>
      match f a with
      | Some e => Some e
      | None => first_failure f l'
      end
  end.

(** What an annotation makes the inner loop raise: [TypeError] for a valid
    one with an unhashable object id, and what [print] raises for an invalid
    one whose warning the standard output does not take. *)
Definition annotation_failure (im_id_str : string) (ann : pyval) : option exn :=
  if valid_annotation ann then
    if hashable_annotation ann then None else Some TypeError_unhashable
  else if stdout_accepts (InvalidAnnotation im_id_str ann) then None
  else Some UnicodeEncodeError.

(** What an item of the mapping makes the loop raise. *)
Definition entry_failure (entry : string * pyval) : option exn :=
  match skip_warning entry with
  | Some w => if stdout_accepts w then None else Some UnicodeEncodeError
  | None =>
      match snd entry with
      | PList anns => first_failure (annotation_failure (fst entry)) anns
      | _ => None
      end
  end.

(** The records of one item of the mapping: none when its key is no
    integer or its value no list. *)
Definition entry_records (scene_id_int : Z) (entry : string * pyval)
  : list target :=
  match int_of_key (fst entry), snd entry with
  | Some i, PList anns => image_records scene_id_int i anns
  | _, _ => []
  end.

(** The valid annotations of the items the loop does not skip. *)
Fixpoint counted_annotations (items : list (string * pyval)) : Z :=
  match items with
  | [] => 0
  | (k, v) :: rest =>
      match int_of_key k, v with
      | Some _, PList anns => count_valid anns + counted_annotations rest
      | _, _ => counted_annotations rest
      end
  end.

End WithRuntime.
End Reference.

(** ** Words for what the resolver does *)

Module SceneReference.
Import FS Scene.

(** The state a run of the resolver ends in, whichever way it ends. *)
Definition state_of (s : step) : rstate :=
  match s with
  | Next st => st
  | Return _ st => st
  end.

(** [p] is the standard path of one of the three kinds in [scene_path], or
    a path that continues one. *)
Definition at_standard_path (scene_path p : string) : Prop :=
  exists key std_name x,
    In (key, std_name) standard_files_to_prepare /\
    p = path_join scene_path std_name +:+ x.

End SceneReference.

(** ** Properties of the aggregation loop *)

Module AggregatorFacts.
Import Aggregator.

Section WithRuntime.
Context `{RT : PyRuntime}.

(** *** The counter *)

Lemma counter_incr_total k c :
  counter_total (counter_incr k c) = counter_total c + 1.
Proof.
  unfold counter_total.
  induction c as [|[k' n] c IH]; simpl; [lia|].
  destruct (key_eqb k' k); simpl; lia.
Qed.

Lemma counter_incr_positive k c :
  Forall (fun kv => 1 <= snd kv) c ->
  Forall (fun kv => 1 <= snd kv) (counter_incr k c).
Proof.
  induction 1 as [|[k' n] c Hn Hc IH]; simpl.
  - repeat constructor; simpl; lia.
  - simpl in Hn. destruct (key_eqb k' k); constructor; simpl; auto; lia.
Qed.

Lemma counter_incr_keys k c kv :
  In kv (counter_incr k c) -> fst kv = k \/ In (fst kv) (map fst c).
Proof.
  induction c as [|[k' n] c IH]; simpl.
  - intros [<-|[]]; auto.
  - destruct (key_eqb k' k); simpl.
    + intros [<-|H]; simpl; auto. right; right. now apply in_map.
    + intros [<-|H]; simpl; auto. destruct (IH H); auto.
Qed.

(** *** The inner loop *)

Lemma valid_annotation_inv ann :
  valid_annotation ann = true ->
  exists d o, ann = PDict d /\ dict_get "obj_id" d = Some o.
Proof.
  destruct ann as [| | | | | |d]; try discriminate. simpl.
  destruct (dict_get "obj_id" d) as [o|] eqn:Ho; [|discriminate]. eauto.
Qed.

(** One turn of the inner loop, for an annotation that counts and for one
    that does not. *)
Lemma count_annotations_valid k d o rest c :
  dict_get "obj_id" d = Some o ->
  count_annotations k (PDict d :: rest) c =
  if hashable o then count_annotations k rest (counter_incr o c)
  else Raise TypeError_unhashable.
Proof. intros H. simpl. now rewrite H. Qed.

Lemma count_annotations_invalid k ann rest c :
  valid_annotation ann = false ->
  count_annotations k (ann :: rest) c =
  if stdout_accepts (InvalidAnnotation k ann)
  then count_annotations k rest c
  else Raise UnicodeEncodeError.
Proof.
  intros H. simpl. unfold print.
  destruct ann as [| | | | | |d];
    try (now destruct (stdout_accepts _)).
  simpl in H. destruct (dict_get "obj_id" d); [discriminate|].
  now destruct (stdout_accepts _).
Qed.

(** The two ways of a turn that goes on, as a proof step: [tac_valid] and
    [tac_invalid] close the goals they leave. *)
Ltac inner_turn ann k rest c H :=
  let Hv := fresh "Hv" in
  let d := fresh "d" in
  let o := fresh "o" in
  let Ho := fresh "Ho" in
  destruct (valid_annotation ann) eqn:Hv;
  [ destruct (valid_annotation_inv _ Hv) as (d & o & -> & Ho);
    rewrite (count_annotations_valid k d o rest c Ho) in H;
    destruct (hashable o) eqn:?; [|discriminate H]
  | rewrite (count_annotations_invalid k ann rest c Hv) in H;
    destruct (stdout_accepts (InvalidAnnotation k ann)) eqn:?;
    [|discriminate H] ].

Lemma count_annotations_total k anns : forall c c',
  count_annotations k anns c = Ok c' ->
  counter_total c' = counter_total c + count_valid anns.
Proof.
  induction anns as [|ann anns IH]; intros c c' H.
  - injection H as <-. simpl. lia.
  - change (count_valid (ann :: anns))
      with ((if valid_annotation ann then 1 else 0) + count_valid anns).
    inner_turn ann k anns c H.
    + rewrite (IH _ _ H), counter_incr_total. lia.
    + rewrite (IH _ _ H). lia.
Qed.

Lemma count_annotations_positive k anns : forall c c',
  count_annotations k anns c = Ok c' ->
  Forall (fun kv => 1 <= snd kv) c ->
  Forall (fun kv => 1 <= snd kv) c'.
Proof.
  induction anns as [|ann anns IH]; intros c c' H Hc.
  - now injection H as <-.
  - inner_turn ann k anns c H; eauto using counter_incr_positive.
Qed.

(** Every key of the counter is the ["obj_id"] of an annotation. *)
Lemma count_annotations_keys k anns : forall c c' kv,
  count_annotations k anns c = Ok c' ->
  In kv c' ->
  In (fst kv) (map fst c) \/
  exists d, In (PDict d) anns /\ dict_get "obj_id" d = Some (fst kv).
Proof.
  induction anns as [|ann anns IH]; intros c c' kv H Hin.
  - injection H as <-. left. now apply in_map.
  - inner_turn ann k anns c H.
    + destruct (IH _ _ _ H Hin) as [Hk|(d' & ? & ?)].
      * apply in_map_iff in Hk as ([k0 n0] & Hk0 & Hin0). simpl in Hk0.
        destruct (counter_incr_keys _ _ _ Hin0) as [Hk|Hk]; simpl in Hk.
        -- right. exists d. split; [now left|]. congruence.
        -- left. congruence.
      * right. exists d'. simpl. auto.
    + destruct (IH _ _ _ H Hin) as [?|(d' & ? & ?)]; auto.
      right. exists d'. simpl. auto.
Qed.

(** With hashable object ids, and invalid annotations whose warnings can be
    printed, the inner loop does not raise. *)
Lemma count_annotations_ok k anns : forall c,
  forallb hashable_annotation anns = true ->
  forallb (reportable_annotation k) anns = true ->
  exists c', count_annotations k anns c = Ok c'.
Proof.
  induction anns as [|ann anns IH]; intros c H Hp; [simpl; eauto|].
  simpl in H, Hp.
  apply andb_prop in H as [Ha H]. apply andb_prop in Hp as [Hpa Hp].
  destruct (valid_annotation ann) eqn:Hv.
  - destruct (valid_annotation_inv _ Hv) as (d & o & -> & Ho).
    rewrite (count_annotations_valid k d o anns c Ho).
    simpl in Ha. rewrite Ho in Ha. rewrite Ha. auto.
  - rewrite (count_annotations_invalid k ann anns c Hv).
    unfold reportable_annotation in Hpa. rewrite Hv in Hpa. simpl in Hpa.
    rewrite Hpa. auto.
Qed.

(** *** The outer loop *)

(** One turn of the loop adds the records of its entry. *)
Lemma targets_loop_cons scene entry items acc :
  targets_loop scene (entry :: items) acc =
  bind (entry_targets scene entry)
       (fun r => targets_loop scene items (acc ++ r)).
Proof.
  destruct entry as [k v]. unfold entry_targets. simpl. unfold print.
  destruct (int_of_key k) as [i|]; simpl.
  - destruct v as [| | | | |anns|]; simpl;
      try (destruct (stdout_accepts _); simpl; [now rewrite app_nil_r|easy]).
    destruct (count_annotations k anns []); reflexivity.
  - destruct (stdout_accepts _); simpl; [now rewrite app_nil_r|easy].
Qed.

Lemma targets_loop_acc scene items : forall acc,
  targets_loop scene items acc =
  bind (targets_loop scene items []) (fun r => Ok (acc ++ r)).
Proof.
  induction items as [|e items IH]; intros acc.
  - simpl. now rewrite app_nil_r.
  - rewrite !targets_loop_cons.
    destruct (entry_targets scene e) as [r|x]; cbn [bind]; [|reflexivity].
    rewrite (IH (acc ++ r)), (IH ([] ++ r)).
    destruct (targets_loop scene items []); cbn [bind]; [|reflexivity].
    now rewrite app_assoc.
Qed.

Lemma targets_loop_app scene items1 : forall items2 acc,
  targets_loop scene (items1 ++ items2) acc =
  bind (targets_loop scene items1 acc) (targets_loop scene items2).
Proof.
  induction items1 as [|e items1 IH]; intros items2 acc; [reflexivity|].
  rewrite <- app_comm_cons, !targets_loop_cons.
  destruct (entry_targets scene e); simpl; auto.
Qed.

(** The records of an entry, when it has some. *)
Lemma entry_targets_inv scene k v recs :
  entry_targets scene (k, v) = Ok recs ->
  recs = [] \/
  exists i anns c,
    int_of_key k = Some i /\ v = PList anns /\
    count_annotations k anns [] = Ok c /\
    recs = counter_targets scene i c.
Proof.
  unfold entry_targets, print. simpl.
  destruct (int_of_key k) as [i|].
  - destruct v as [| | | | |anns|];
      try (destruct (stdout_accepts _); simpl; [intros [= <-]; now left|easy]).
    destruct (count_annotations k anns []) as [c|e] eqn:Hc; simpl; [|easy].
    intros [= <-]. right. exists i, anns, c. auto.
  - destruct (stdout_accepts _); simpl; [intros [= <-]; now left|easy].
Qed.

(** Every record the loop adds is for a pair that was seen, with a count of
    at least one. *)
Lemma targets_loop_observed scene items : forall acc out t,
  targets_loop scene items acc = Ok out ->
  In t out ->
  In t acc \/ (1 <= inst_count t /\ observed scene items t).
Proof.
  induction items as [|[k v] items IH]; intros acc out t H Hin.
  - injection H as <-. auto.
  - assert (Hweak : forall t0, observed scene items t0 ->
                               observed scene ((k, v) :: items) t0).
    { intros t0 (Hs & k0 & anns & d & H1 & H2). split; auto.
      exists k0, anns, d. split; [now right|auto]. }
    rewrite targets_loop_cons in H.
    destruct (entry_targets scene (k, v)) as [recs|e] eqn:He; [|discriminate].
    cbn [bind] in H.
    destruct (IH _ _ _ H Hin) as [Hacc|[? ?]]; auto.
    apply in_app_or in Hacc as [?|Hnew]; auto.
    destruct (entry_targets_inv _ _ _ _ He)
      as [->|(i & anns & c & Hk & -> & Hc & ->)]; [destruct Hnew|].
    right. unfold counter_targets in Hnew.
    apply in_map_iff in Hnew as (kv & <- & Hkv). simpl. split.
    + pose proof (count_annotations_positive _ _ _ _ Hc (List.Forall_nil _))
        as Hp.
      rewrite List.Forall_forall in Hp. exact (Hp _ Hkv).
    + split; [reflexivity|]. simpl.
      destruct (count_annotations_keys _ _ _ _ _ Hc Hkv) as [[]|(d & Hd & Ho)].
      exists k, anns, d. split; [now left|auto].
Qed.

(** The records of an image sum up to its valid annotations. *)
Lemma entry_targets_sum scene k i anns recs :
  int_of_key k = Some i ->
  entry_targets scene (k, PList anns) = Ok recs ->
  sum_inst_count recs = count_valid anns.
Proof.
  unfold entry_targets. simpl. intros -> H.
  destruct (count_annotations k anns []) as [c|e] eqn:Hc; [|discriminate].
  injection H as <-.
  assert (Hs : sum_inst_count (counter_targets scene i c) = counter_total c).
  { unfold sum_inst_count, counter_total, counter_targets.
    now rewrite map_map. }
  rewrite Hs, (count_annotations_total _ _ _ _ Hc). reflexivity.
Qed.

Lemma entry_targets_ok scene k i anns :
  int_of_key k = Some i ->
  forallb hashable_annotation anns = true ->
  forallb (reportable_annotation k) anns = true ->
  exists recs, entry_targets scene (k, PList anns) = Ok recs.
Proof.
  intros Hk H Hp. unfold entry_targets. simpl. rewrite Hk.
  destruct (count_annotations_ok k anns [] H Hp) as [c ->]. simpl. eauto.
Qed.

End WithRuntime.
End AggregatorFacts.

(** ** Properties of paths and of the resolver *)

Module SceneFacts.
Import FS Aggregator Scene.

Lemma append_cons x a b : String x a +:+ b = String x (a +:+ b).
Proof. reflexivity. Qed.

Lemma append_assoc a b c : (a +:+ b) +:+ c = a +:+ (b +:+ c).
Proof.
  induction a as [|x a IH]; [reflexivity|].
  now rewrite !append_cons, IH.
Qed.

Lemma append_inv_head a b c : a +:+ b = a +:+ c -> b = c.
Proof.
  induction a as [|x a IH]; intros H; [exact H|].
  rewrite !append_cons in H. injection H. auto.
Qed.

Lemma append_empty_r a : a +:+ "" = a.
Proof.
  induction a as [|x a IH]; [reflexivity|].
  now rewrite append_cons, IH.
Qed.

(** A base name holds no separator in front. *)
Lemma basename_relative p : starts_with_sep (basename p) = false.
Proof.
  unfold basename. induction p as [|a p IH]; simpl; [reflexivity|].
  destruct (cut_at_last_sep p) as [h t]. simpl in IH.
  destruct (negb (String.eqb h "")); simpl; [exact IH|].
  destruct (is_sep a) eqn:Ha; simpl; [exact IH|exact Ha].
Qed.

(** Two names joined to one directory give one path only when equal, also
    when something was appended to the first path. *)
Lemma path_join_inv dir n1 n2 x :
  starts_with_sep n1 = false -> starts_with_sep n2 = false ->
  path_join dir n1 +:+ x = path_join dir n2 -> n1 +:+ x = n2.
Proof.
  unfold path_join. intros -> -> H.
  rewrite append_assoc in H. apply append_inv_head in H.
  rewrite append_assoc in H. now apply append_inv_head in H.
Qed.

(** [shutil.copy2] writes at its destination or below it. *)
Lemma copy_target_shape fs src dst :
  exists x, copy_target fs src dst = dst +:+ x.
Proof.
  unfold copy_target. destruct (isdir fs dst).
  - unfold path_join. rewrite basename_relative. eauto.
  - exists "". now rewrite append_empty_r.
Qed.

Lemma copy2_spec fs src dst fs' :
  copy2 fs src dst = Some fs' ->
  exists c, fs !! src = Some (File c) /\
            fs' = <[copy_target fs src dst := File c]> fs.
Proof.
  unfold copy2. destruct (fs !! src) as [[c|]|]; try discriminate.
  destruct (String.eqb src _); [discriminate|].
  destruct (isdir fs _); [discriminate|].
  intros [= <-]. eauto.
Qed.

Lemma turn_frame src dst st st' q :
  turn src dst st st' ->
  q <> copy_target (r_fs st) src dst ->
  r_fs st' !! q = r_fs st !! q.
Proof.
  intros [->|H _|c _ H _] Hq; try (rewrite H); auto.
  now rewrite lookup_insert_ne.
Qed.

Lemma prepare_file_turn scene_path sensor_suffix key std_name st :
  let src := path_join scene_path (actual_src_name key std_name sensor_suffix) in
  let dst := path_join scene_path std_name in
  match prepare_file scene_path sensor_suffix key std_name st with
  | Next st' => turn src dst st st'
  | Return _ st' => st' = st
  end.
Proof.
  simpl. unfold prepare_file.
  destruct (negb (exists_ _ _)).
  - destruct (_ && _); [reflexivity|now apply turn_skip].
  - destruct (negb (String.eqb _ _)).
    + destruct (copy2 _ _ _) as [fs'|] eqn:Hcopy.
      * apply copy2_spec in Hcopy as (c & Hc & ->).
        now apply (turn_copy _ _ _ _ c).
      * destruct (String.eqb key "gt"); [reflexivity|now apply turn_skip].
    + now apply turn_in_place.
Qed.

(** A kind other than the ground truth never ends the call. *)
Lemma prepare_file_optional scene_path sensor_suffix key std_name st :
  String.eqb key "gt" = false ->
  exists st',
    prepare_file scene_path sensor_suffix key std_name st = Next st' /\
    r_gt_prepared st' = r_gt_prepared st /\
    turn (path_join scene_path (actual_src_name key std_name sensor_suffix))
         (path_join scene_path std_name) st st'.
Proof.
  intros Hkey.
  pose proof (prepare_file_turn scene_path sensor_suffix key std_name st) as Ht.
  simpl in Ht. revert Ht. unfold prepare_file. rewrite Hkey. simpl.
  destruct (negb (exists_ _ _)); [eauto|].
  destruct (negb (String.eqb _ _)); [|simpl; eauto].
  destruct (copy2 _ _ _); simpl; eauto.
Qed.

Lemma exists_false fs p : exists_ fs p = false <-> fs !! p = None.
Proof. unfold exists_. destruct (fs !! p); split; congruence. Qed.

Lemma exists_lookup fs fs' p : fs' !! p = fs !! p -> exists_ fs' p = exists_ fs p.
Proof. unfold exists_. now intros ->. Qed.

Lemma isdir_lookup fs fs' p : fs' !! p = fs !! p -> isdir fs' p = isdir fs p.
Proof. unfold isdir. now intros ->. Qed.

(** The name of the sensor's ground truth is not the standard one. *)
Lemma gt_src_ne_dst scene_path sensor_suffix :
  String.eqb (path_join scene_path (src_name_with_suffix "gt" sensor_suffix))
             (path_join scene_path "scene_gt.json") = false.
Proof.
  apply String.eqb_neq. intros H.
  rewrite <- (append_empty_r (path_join _ (src_name_with_suffix _ _))) in H.
  apply path_join_inv in H; [|reflexivity..].
  rewrite append_empty_r in H. discriminate H.
Qed.

(** What the camera turn writes is no ground-truth file, standard or not. *)
Lemma camera_target_ne_gt scene_path sensor_suffix fs src name :
  name = "scene_gt.json" \/ name = src_name_with_suffix "gt" sensor_suffix ->
  path_join scene_path name <>
  copy_target fs src (path_join scene_path "scene_camera.json").
Proof.
  intros Hname Heq.
  destruct (copy_target_shape fs src (path_join scene_path "scene_camera.json"))
    as [x Hx].
  rewrite Hx in Heq. symmetry in Heq.
  apply path_join_inv in Heq; [|reflexivity|now destruct Hname; subst].
  destruct Hname; subst; discriminate Heq.
Qed.

(** Nor does the turn of [gt_info] write the standard ground truth. *)
Lemma gt_info_target_ne_gt scene_path fs src :
  path_join scene_path "scene_gt.json" <>
  copy_target fs src (path_join scene_path "scene_gt_info.json").
Proof.
  intros Heq.
  destruct (copy_target_shape fs src (path_join scene_path "scene_gt_info.json"))
    as [x Hx].
  rewrite Hx in Heq. symmetry in Heq.
  apply path_join_inv in Heq; [|reflexivity..].
  discriminate Heq.
Qed.

(** The loop of line 34 written out for its three kinds. *)
Lemma resolve_turns scene_path sensor_suffix fs :
  resolve scene_path sensor_suffix fs =
  match prepare_file scene_path sensor_suffix "camera" "scene_camera.json"
          (mk_rstate fs false []) with
  | Return o st => Return o st
  | Next st1 =>
      match prepare_file scene_path sensor_suffix "gt" "scene_gt.json" st1 with
      | Return o st => Return o st
      | Next st2 =>
          match prepare_file scene_path sensor_suffix "gt_info"
                  "scene_gt_info.json" st2 with
          | Return o st => Return o st
          | Next st3 =>
              if negb (exists_ (r_fs st3) (final_gt_file_for_targets scene_path))
                 && negb (r_gt_prepared st3)
              then Return GtUnavailable st3
              else Next st3
          end
      end
  end.
Proof.
  unfold resolve, standard_files_to_prepare, prepare_loop.
  destruct (prepare_file _ _ "camera" _ _) as [st1|]; [|reflexivity].
  destruct (prepare_file _ _ "gt" _ _) as [st2|]; [|reflexivity].
  destruct (prepare_file _ _ "gt_info" _ _); reflexivity.
Qed.

(** The turn of the ground truth, case by case. *)
Lemma gt_turn_missing scene_path sensor_suffix st :
  r_fs st !! path_join scene_path
               (actual_src_name "gt" "scene_gt.json" sensor_suffix) = None ->
  r_fs st !! path_join scene_path "scene_gt.json" = None ->
  prepare_file scene_path sensor_suffix "gt" "scene_gt.json" st =
  Return GtMissing st.
Proof.
  intros Hsrc Hdst. unfold prepare_file, exists_. now rewrite Hsrc, Hdst.
Qed.


Lemma gt_turn_copy scene_path sensor_suffix st c :
  nonempty sensor_suffix = true ->
  r_fs st !! path_join scene_path (src_name_with_suffix "gt" sensor_suffix) =
    Some (File c) ->
  isdir (r_fs st) (path_join scene_path "scene_gt.json") = false ->
  prepare_file scene_path sensor_suffix "gt" "scene_gt.json" st =
  Next (mk_rstate
          (<[path_join scene_path "scene_gt.json" := File c]> (r_fs st))
          true
          ((path_join scene_path (src_name_with_suffix "gt" sensor_suffix),
            path_join scene_path "scene_gt.json") :: r_copies st)).
Proof.
  intros Hne Hsrc Hdir.
  unfold prepare_file, actual_src_name, exists_, copy2, copy_target.
  rewrite Hne, Hsrc, Hdir, gt_src_ne_dst, Hdir. reflexivity.
Qed.

(** Without a suffix a turn copies nothing. *)
Lemma turn_without_suffix scene_path key std_name st :
  prepare_file scene_path "" key std_name st =
  if exists_ (r_fs st) (path_join scene_path std_name)
  then Next (mk_rstate (r_fs st)
               (if String.eqb key "gt" then true else r_gt_prepared st)
               (r_copies st))
  else if String.eqb key "gt" then Return GtMissing st else Next st.
Proof.
  unfold prepare_file, actual_src_name, nonempty.
  change (negb (String.eqb "" "")) with false. cbv iota.
  destruct (exists_ _ _); simpl.
  - now rewrite String.eqb_refl.
  - now rewrite andb_true_r.
Qed.

End SceneFacts.

(** ** The specification's statements about aggregation *)

Module AggregatorClaims.
Import FS Aggregator Scene AggregatorFacts Samples.

(** C1: for the mapping [{"0": [{"obj_id":5},{"obj_id":5},{"obj_id":7}],
    "1": []}] and scene 4 the loop leaves exactly the records
    (4, 0, 5, 2) and (4, 0, 7, 1), in this order, and the item of image "1"
    adds no record. *)
Theorem aggregate_example `{RT : PyRuntime} :
  aggregate 4 gt_example =
    Targets [mk_target 4 0 (PInt 5) 2; mk_target 4 0 (PInt 7) 1] /\
  entry_targets 4 ("0", PList [ann (PInt 5); ann (PInt 5); ann (PInt 7)]) =
    Ok [mk_target 4 0 (PInt 5) 2; mk_target 4 0 (PInt 7) 1] /\
  entry_targets 4 ("1", PList []) = Ok [].
Proof. repeat split. Qed.

(** C2, at the input where it fails: the only annotation of image "0" is a
    dict with an ["obj_id"], so one valid annotation, but its object id is a
    list; indexing the counter raises [TypeError], the call ends there and
    no record is ever produced for the image. *)
Theorem unhashable_obj_id_raises `{RT : PyRuntime} :
  int_of_key "0" = Some 0 /\
  count_valid [ann (PList [PInt 1])] = 1 /\
  entry_targets 4 ("0", PList [ann (PList [PInt 1])]) =
    Raise TypeError_unhashable /\
  aggregate 4 gt_unhashable = Uncaught TypeError_unhashable /\
  forall fs gt_path out,
    load_gt fs gt_path = Some gt_unhashable ->
    generate_targets fs gt_path out 4 = (Crashed TypeError_unhashable, fs).
Proof.
  repeat split. intros fs gt_path out H.
  unfold generate_targets. now rewrite H.
Qed.

(** C3: every record the aggregation emits has [inst_count >= 1] and stands
    for an (image, object) pair that occurs in the mapping, so a pair without
    annotations never yields a record. *)
Theorem inst_count_at_least_one `{RT : PyRuntime} scene items targets :
  aggregate scene (PDict items) = Targets targets ->
  forall t, In t targets -> 1 <= inst_count t /\ observed scene items t.
Proof.
  unfold aggregate. intros H t Hin.
  destruct (targets_loop scene items []) as [out|e] eqn:Hloop; [|discriminate].
  injection H as ->.
  destruct (targets_loop_observed _ _ _ _ _ Hloop Hin) as [[]|?]; auto.
Qed.

Lemma inst_count_at_least_one_witness :
  @aggregate sample_runtime 4 gt_example =
    Targets [mk_target 4 0 (PInt 5) 2; mk_target 4 0 (PInt 7) 1] /\
  forall t,
    In t [mk_target 4 0 (PInt 5) 2; mk_target 4 0 (PInt 7) 1] ->
    1 <= inst_count t /\
    @observed sample_runtime 4
      [("0", PList [ann (PInt 5); ann (PInt 5); ann (PInt 7)]);
       ("1", PList [])] t.
Proof.
  split; [reflexivity|].
  apply (@inst_count_at_least_one sample_runtime 4). reflexivity.
Defined.

(** C7, where it fails: for a key that is no integer line 95 prints a
    warning that holds the key.  When the standard output does not take that
    text (a key with a lone surrogate, on an output in UTF-8), [print]
    raises inside the handler of [ValueError], nothing catches it and the
    loop ends there: the item is not skipped, the run is aborted, and the
    records of the items before and after it are lost. *)
Theorem unprintable_key_aborts `{RT : PyRuntime} scene items1 k v items2
    targets1 :
  int_of_key k = None ->
  stdout_accepts (KeyIsNoInteger k) = false ->
  aggregate scene (PDict items1) = Targets targets1 ->
  entry_targets scene (k, v) = Raise UnicodeEncodeError /\
  aggregate scene (PDict (items1 ++ (k, v) :: items2))
    = Uncaught UnicodeEncodeError /\
  forall fs gt_path out,
    load_gt fs gt_path = Some (PDict (items1 ++ (k, v) :: items2)) ->
    generate_targets fs gt_path out scene = (Crashed UnicodeEncodeError, fs).
Proof.
  intros Hk Hp H1.
  assert (He : entry_targets scene (k, v) = Raise UnicodeEncodeError).
  { unfold entry_targets, print. simpl. now rewrite Hk, Hp. }
  assert (Ha : aggregate scene (PDict (items1 ++ (k, v) :: items2))
               = Uncaught UnicodeEncodeError).
  { revert H1. unfold aggregate. rewrite targets_loop_app.
    destruct (targets_loop scene items1 []) as [acc|e]; [|discriminate].
    intros _. cbn [bind]. now rewrite targets_loop_cons, He. }
  split; [exact He|]. split; [exact Ha|].
  intros fs gt_path out Hload. unfold generate_targets.
  now rewrite Hload, Ha.
Qed.

Lemma unprintable_key_aborts_witness :
  @int_of_key sample_runtime lone_surrogate = None /\
  @stdout_accepts sample_runtime (KeyIsNoInteger lone_surrogate) = false /\
  @aggregate sample_runtime 4
    (PDict [("0", PList [ann (PInt 5)]);
            ("2", PList [ann (PInt 7); ann (PInt 7)])])
    = Targets [mk_target 4 0 (PInt 5) 1; mk_target 4 2 (PInt 7) 2] /\
  @entry_targets sample_runtime 4 (lone_surrogate, PList [ann (PInt 9)])
    = Raise UnicodeEncodeError /\
  @aggregate sample_runtime 4 (PDict gt_with_surrogate_key)
    = Uncaught UnicodeEncodeError /\
  forall fs gt_path out,
    @load_gt sample_runtime fs gt_path = Some (PDict gt_with_surrogate_key) ->
    @generate_targets sample_runtime fs gt_path out 4
      = (Crashed UnicodeEncodeError, fs).
Proof.
  split; [reflexivity|]. split; [reflexivity|]. split; [reflexivity|].
  apply (@unprintable_key_aborts sample_runtime 4
           [("0", PList [ann (PInt 5)])] lone_surrogate (PList [ann (PInt 9)])
           [("2", PList [ann (PInt 7); ann (PInt 7)])]
           [mk_target 4 0 (PInt 5) 1]); reflexivity.
Defined.

(** C10: [int] takes more than the decimal forms of the naturals: a sign,
    white space around the number and underscores between its digits are
    accepted, and the item with key "-3" yields a record with image id -3. *)
Theorem negative_key_is_accepted `{RT : PyRuntime} :
  int_of_key "-3" = Some (-3) /\
  int_of_key " 12 " = Some 12 /\
  int_of_key "+1_0" = Some 10 /\
  aggregate 4 gt_negative_key = Targets [mk_target 4 (-3) (PInt 5) 1] /\
  exists t, In t [mk_target 4 (-3) (PInt 5) 1] /\ im_id t < 0.
Proof.
  repeat split. eexists. split; [now left|]. simpl. lia.
Qed.

End AggregatorClaims.

(** ** The specification's statements about the resolver and the whole run *)

Module SceneClaims.
Import FS Aggregator Scene SceneFacts Samples.

(** C4: with a sensor suffix, no ground truth of that sensor and no standard
    ground truth in the scene directory, the call ends in the resolver, at
    the return of line 51: nothing is loaded or aggregated, and lines
    120-130, which alone write the targets file, are not reached.  The call
    ends with the file system the resolver left: the initial one, or the
    initial one with the one copy that the camera turn made before. *)
Theorem missing_ground_truth_aborts `{RT : PyRuntime} fs dataset_root
    dataset_name split scene_id_int sensor_suffix output_targets_filename :
  let scene_path := scene_path_of dataset_root dataset_name split scene_id_int in
  let cam_src :=
    path_join scene_path (src_name_with_suffix "camera" sensor_suffix) in
  let cam_dst := path_join scene_path "scene_camera.json" in
  nonempty sensor_suffix = true ->
  isdir fs scene_path = true ->
  fs !! path_join scene_path (src_name_with_suffix "gt" sensor_suffix) = None ->
  fs !! path_join scene_path "scene_gt.json" = None ->
  exists st,
    resolve scene_path sensor_suffix fs = Return GtMissing st /\
    setup_scene_files_and_targets fs dataset_root dataset_name split
      scene_id_int sensor_suffix output_targets_filename
    = (GtMissing, r_fs st, r_copies st) /\
    ((r_fs st = fs /\ r_copies st = []) \/
     (exists c, fs !! cam_src = Some (File c) /\
                r_fs st = <[copy_target fs cam_src cam_dst := File c]> fs /\
                r_copies st = [(cam_src, cam_dst)])).
Proof.
  intros scene_path cam_src cam_dst Hne Hdir Hsrc Hdst.
  assert (Hres : exists st,
             resolve scene_path sensor_suffix fs = Return GtMissing st /\
             ((r_fs st = fs /\ r_copies st = []) \/
              (exists c, fs !! cam_src = Some (File c) /\
                 r_fs st = <[copy_target fs cam_src cam_dst := File c]> fs /\
                 r_copies st = [(cam_src, cam_dst)]))).
  { rewrite resolve_turns.
    destruct (prepare_file_optional scene_path sensor_suffix "camera"
                "scene_camera.json" (mk_rstate fs false []) eq_refl)
      as (st1 & -> & _ & Hturn).
    unfold actual_src_name in Hturn. rewrite Hne in Hturn.
    fold cam_src cam_dst in Hturn.
    assert (Hframe : forall q, q <> copy_target fs cam_src cam_dst ->
                               r_fs st1 !! q = fs !! q).
    { intros q Hq. now apply (turn_frame _ _ _ _ q Hturn). }
    rewrite gt_turn_missing.
    - exists st1. split; [reflexivity|].
      destruct Hturn as [->|Hfs Hcp|c Hc Hfs Hcp]; simpl in *; eauto.
    - unfold actual_src_name. rewrite Hne, Hframe; [exact Hsrc|].
      apply (camera_target_ne_gt _ sensor_suffix). now right.
    - rewrite Hframe; [exact Hdst|].
      apply (camera_target_ne_gt _ sensor_suffix). now left. }
  destruct Hres as (st & Hres & Hst). exists st.
  split; [exact Hres|]. split; [|exact Hst].
  unfold setup_scene_files_and_targets. fold scene_path.
  now rewrite Hdir, Hres.
Qed.

Lemma missing_ground_truth_aborts_witness :
  exists st,
    resolve (scene_path_of "/d" "ipd" "test" 4) "cam1" fs_no_gt
      = Return GtMissing st /\
    @setup_scene_files_and_targets sample_runtime fs_no_gt "/d" "ipd" "test" 4
      "cam1" "targets_custom.json" = (GtMissing, r_fs st, r_copies st) /\
    ((r_fs st = fs_no_gt /\ r_copies st = []) \/
     (exists c,
         fs_no_gt !! "/d/ipd/test/000004/scene_camera_cam1.json"
           = Some (File c) /\
         r_fs st = <[copy_target fs_no_gt
                       "/d/ipd/test/000004/scene_camera_cam1.json"
                       "/d/ipd/test/000004/scene_camera.json" := File c]>
                     fs_no_gt /\
         r_copies st = [("/d/ipd/test/000004/scene_camera_cam1.json",
                         "/d/ipd/test/000004/scene_camera.json")])).
Proof.
  apply (@missing_ground_truth_aborts sample_runtime fs_no_gt "/d" "ipd" "test"
           4 "cam1" "targets_custom.json"); reflexivity.
Defined.



(** C6: when the loaded ground truth is no dict the aggregation stops at the
    return of line 89; the call ends with the file system the resolver left,
    so no targets file is written. *)
Theorem non_mapping_ground_truth_aborts `{RT : PyRuntime} fs dataset_root
    dataset_name split scene_id_int sensor_suffix output_targets_filename
    st scene_gt_data :
  let scene_path := scene_path_of dataset_root dataset_name split scene_id_int in
  isdir fs scene_path = true ->
  resolve scene_path sensor_suffix fs = Next st ->
  load_gt (r_fs st) (final_gt_file_for_targets scene_path) = Some scene_gt_data ->
  is_dict scene_gt_data = false ->
  aggregate scene_id_int scene_gt_data = NotADict /\
  (forall out,
      generate_targets (r_fs st) (final_gt_file_for_targets scene_path) out
        scene_id_int = (GtNotADict, r_fs st)) /\
  setup_scene_files_and_targets fs dataset_root dataset_name split
    scene_id_int sensor_suffix output_targets_filename
  = (GtNotADict, r_fs st, r_copies st).
Proof.
  intros scene_path Hdir Hres Hload Hdict.
  assert (Hagg : aggregate scene_id_int scene_gt_data = NotADict).
  { destruct scene_gt_data; try reflexivity. discriminate Hdict. }
  assert (Hgen : forall out,
             generate_targets (r_fs st) (final_gt_file_for_targets scene_path)
               out scene_id_int = (GtNotADict, r_fs st)).
  { intros out. unfold generate_targets. now rewrite Hload, Hagg. }
  repeat split; auto.
  unfold setup_scene_files_and_targets. fold scene_path.
  now rewrite Hdir, Hres, Hgen.
Qed.

Lemma non_mapping_ground_truth_aborts_witness :
  @aggregate sample_runtime 4 (PList []) = NotADict /\
  (forall out,
      @generate_targets sample_runtime fs_standard
        "/d/ipd/test/000004/scene_gt.json" out 4 = (GtNotADict, fs_standard)) /\
  @setup_scene_files_and_targets sample_runtime fs_standard "/d" "ipd" "test" 4
    "" "targets_custom.json" = (GtNotADict, fs_standard, []).
Proof.
  apply (@non_mapping_ground_truth_aborts sample_runtime fs_standard "/d" "ipd"
           "test" 4 "" "targets_custom.json" (mk_rstate fs_standard true [])
           (PList [])); reflexivity.
Defined.

(** C8: without a sensor suffix and with the three standard files in place,
    every kind has its source at its destination, no turn copies anything,
    and the resolver ends with [Next], the ground truth marked as prepared
    and the file system the very one it started from. *)
Theorem standard_files_are_left_alone fs scene_path :
  exists_ fs (path_join scene_path "scene_camera.json") = true ->
  exists_ fs (path_join scene_path "scene_gt.json") = true ->
  exists_ fs (path_join scene_path "scene_gt_info.json") = true ->
  resolve scene_path "" fs = Next (mk_rstate fs true []) /\
  forall key std_name,
    In (key, std_name) standard_files_to_prepare ->
    path_join scene_path (actual_src_name key std_name "")
      = path_join scene_path std_name /\
    forall st,
      r_fs st = fs ->
      exists st',
        prepare_file scene_path "" key std_name st = Next st' /\
        r_fs st' = fs /\ r_copies st' = r_copies st.
Proof.
  intros Hcam Hgt Hinfo. split.
  - rewrite resolve_turns, turn_without_suffix. simpl r_fs. rewrite Hcam.
    rewrite turn_without_suffix. simpl r_fs. rewrite Hgt.
    rewrite turn_without_suffix. simpl r_fs. rewrite Hinfo.
    unfold final_gt_file_for_targets. simpl. now rewrite Hgt.
  - intros key std_name Hin. split; [reflexivity|].
    intros st Hst. rewrite turn_without_suffix, Hst.
    assert (Hex : exists_ fs (path_join scene_path std_name) = true).
    { destruct Hin as [H|[H|[H|[]]]]; injection H as <- <-; assumption. }
    rewrite Hex. eexists. split; [reflexivity|]. simpl. auto.
Qed.

Lemma standard_files_are_left_alone_witness :
  resolve "/d/ipd/test/000004" "" fs_standard
    = Next (mk_rstate fs_standard true []) /\
  forall key std_name,
    In (key, std_name) standard_files_to_prepare ->
    path_join "/d/ipd/test/000004" (actual_src_name key std_name "")
      = path_join "/d/ipd/test/000004" std_name /\
    forall st,
      r_fs st = fs_standard ->
      exists st',
        prepare_file "/d/ipd/test/000004" "" key std_name st = Next st' /\
        r_fs st' = fs_standard /\ r_copies st' = r_copies st.
Proof.
  apply (standard_files_are_left_alone fs_standard "/d/ipd/test/000004");
    reflexivity.
Defined.

(** C9: the standard ground truth the resolver makes from the sensor's file
    has the text of that file, so aggregating the one gives what aggregating
    the other gives, for every scene id. *)
Theorem copy_preserves_aggregation `{RT : PyRuntime} fs scene_path
    sensor_suffix text :
  let gt_src :=
    path_join scene_path (src_name_with_suffix "gt" sensor_suffix) in
  let gt_dst := final_gt_file_for_targets scene_path in
  nonempty sensor_suffix = true ->
  fs !! gt_src = Some (File text) ->
  isdir fs gt_dst = false ->
  exists st,
    resolve scene_path sensor_suffix fs = Next st /\
    r_gt_prepared st = true /\
    In (gt_src, gt_dst) (r_copies st) /\
    r_fs st !! gt_dst = Some (File text) /\
    forall scene_id_int,
      aggregate_file scene_id_int (r_fs st) gt_dst
        = aggregate_file scene_id_int fs gt_src /\
      aggregate_file scene_id_int (r_fs st) gt_dst
        = option_map (aggregate scene_id_int) (json_load text).
Proof.
  intros gt_src gt_dst Hne Hsrc Hdir.
  unfold gt_src, gt_dst, final_gt_file_for_targets in *.
  rewrite resolve_turns.
  destruct (prepare_file_optional scene_path sensor_suffix "camera"
              "scene_camera.json" (mk_rstate fs false []) eq_refl)
    as (st1 & -> & _ & Hturn1).
  assert (Hframe1 : forall name,
             name = "scene_gt.json" \/
             name = src_name_with_suffix "gt" sensor_suffix ->
             r_fs st1 !! path_join scene_path name =
             fs !! path_join scene_path name).
  { intros name Hname. apply (turn_frame _ _ _ _ _ Hturn1).
    now apply (camera_target_ne_gt _ sensor_suffix). }
  rewrite (gt_turn_copy _ _ _ text); auto.
  - destruct (prepare_file_optional scene_path sensor_suffix "gt_info"
                "scene_gt_info.json"
                (mk_rstate
                   (<[path_join scene_path "scene_gt.json" := File text]>
                      (r_fs st1)) true
                   ((path_join scene_path
                       (src_name_with_suffix "gt" sensor_suffix),
                     path_join scene_path "scene_gt.json") :: r_copies st1))
                eq_refl)
      as (st3 & -> & Hflag3 & Hturn3).
    assert (Hdst3 : r_fs st3 !! path_join scene_path "scene_gt.json"
                    = Some (File text)).
    { rewrite (turn_frame _ _ _ _ _ Hturn3).
      - simpl. apply lookup_insert_eq.
      - apply gt_info_target_ne_gt. }
    simpl in Hflag3. rewrite Hflag3, andb_false_r.
    exists st3. repeat split; auto.
    + destruct Hturn3 as [->|_ Hcp|c _ _ Hcp]; simpl in *;
        try rewrite Hcp; simpl; auto.
    + unfold aggregate_file, load_gt, read_text. now rewrite Hdst3, Hsrc.
    + unfold aggregate_file, load_gt, read_text. now rewrite Hdst3.
  - rewrite Hframe1; auto.
  - rewrite (isdir_lookup fs); auto.
Qed.

Lemma copy_preserves_aggregation_witness :
  exists st,
    resolve "/d/ipd/test/000004" "cam1" fs_suffixed = Next st /\
    r_gt_prepared st = true /\
    In ("/d/ipd/test/000004/scene_gt_cam1.json",
        "/d/ipd/test/000004/scene_gt.json") (r_copies st) /\
    r_fs st !! "/d/ipd/test/000004/scene_gt.json"
      = Some (File gt_example_text) /\
    forall scene_id_int,
      @aggregate_file sample_runtime scene_id_int (r_fs st)
        "/d/ipd/test/000004/scene_gt.json"
        = @aggregate_file sample_runtime scene_id_int fs_suffixed
            "/d/ipd/test/000004/scene_gt_cam1.json" /\
      @aggregate_file sample_runtime scene_id_int (r_fs st)
        "/d/ipd/test/000004/scene_gt.json"
        = option_map (@aggregate sample_runtime scene_id_int)
            (sample_load gt_example_text).
Proof.
  apply (@copy_preserves_aggregation sample_runtime fs_suffixed
           "/d/ipd/test/000004" "cam1" gt_example_text); reflexivity.
Defined.

End SceneClaims.

(** ** Equality of counter keys *)

Module KeyFacts.

Lemma pow2_pos n : 0 <= n -> 0 < 2 ^ n.
Proof. intros. apply Z.pow_pos_nonneg; lia. Qed.

(** Equality of two dyadic numbers does not depend on the exponent they are
    brought to. *)
Lemma dyadic_eq_shift m1 e1 m2 e2 k k' :
  k <= k' -> k' <= e1 -> k' <= e2 ->
  (m1 * 2 ^ (e1 - k') = m2 * 2 ^ (e2 - k') <->
   m1 * 2 ^ (e1 - k) = m2 * 2 ^ (e2 - k)).
Proof.
  intros Hk H1 H2.
  replace (e1 - k) with ((e1 - k') + (k' - k)) by lia.
  replace (e2 - k) with ((e2 - k') + (k' - k)) by lia.
  rewrite !Z.pow_add_r by lia.
  pose proof (pow2_pos (k' - k) ltac:(lia)) as Hp.
  split; intros H.
  - rewrite !Z.mul_assoc. now rewrite H.
  - rewrite !Z.mul_assoc in H. apply Z.mul_reg_r in H; lia.
Qed.

Lemma dyadic_zero m e k : k <= e -> (m * 2 ^ (e - k) = 0 <-> m = 0).
Proof.
  intros Hk. pose proof (pow2_pos (e - k) ltac:(lia)). nia.
Qed.

Lemma dyadic_eq_zero m1 e1 m2 e2 k :
  k <= e1 -> k <= e2 ->
  Z.of_N m1 * 2 ^ (e1 - k) = Z.of_N m2 * 2 ^ (e2 - k) ->
  m1 = 0%N -> m2 = 0%N.
Proof.
  intros H1 H2 H ->. apply N2Z.inj.
  apply (dyadic_zero _ e2 k); [lia|]. rewrite <- H. reflexivity.
Qed.

(** [float_eqb] on finite numbers, as a proposition. *)
Lemma fin_eqb_spec s1 m1 e1 s2 m2 e2 k :
  k <= e1 -> k <= e2 ->
  float_eqb (FFin s1 m1 e1) (FFin s2 m2 e2) = true <->
  Z.of_N m1 * 2 ^ (e1 - k) = Z.of_N m2 * 2 ^ (e2 - k) /\
  (m1 = 0%N \/ s1 = s2).
Proof.
  intros H1 H2. simpl.
  rewrite andb_true_iff, orb_true_iff, !Z.eqb_eq.
  rewrite (dyadic_eq_shift _ e1 _ e2 k (Z.min e1 e2)) by lia.
  rewrite dyadic_zero by lia.
  assert (Hs : Bool.eqb s1 s2 = true <-> s1 = s2)
    by (destruct s1, s2; simpl; split; congruence).
  rewrite Hs. split; intros [? [?|?]]; split; auto; left; lia.
Qed.

Lemma float_eqb_sym f g : float_eqb f g = float_eqb g f.
Proof.
  destruct f as [|a|s1 m1 e1], g as [|b|s2 m2 e2]; try reflexivity.
  - now destruct a, b.
  - apply eq_true_iff_eq.
    rewrite (fin_eqb_spec s1 m1 e1 s2 m2 e2 (Z.min e1 e2)) by lia.
    rewrite (fin_eqb_spec s2 m2 e2 s1 m1 e1 (Z.min e1 e2)) by lia.
    split; intros [H [?|?]]; split; auto; left;
      eapply (dyadic_eq_zero _ _ _ _ (Z.min e1 e2)); eauto; lia.
Qed.

Lemma float_eqb_trans f g h :
  float_eqb f g = true -> float_eqb g h = true -> float_eqb f h = true.
Proof.
  destruct f as [|a|s1 m1 e1], g as [|b|s2 m2 e2], h as [|c|s3 m3 e3];
    try (simpl; congruence).
  - simpl. destruct a, b, c; simpl; congruence.
  - set (k := Z.min e1 (Z.min e2 e3)).
    rewrite (fin_eqb_spec s1 m1 e1 s2 m2 e2 k) by lia.
    rewrite (fin_eqb_spec s2 m2 e2 s3 m3 e3 k) by lia.
    rewrite (fin_eqb_spec s1 m1 e1 s3 m3 e3 k) by lia.
    intros [H12 S12] [H23 S23]. split; [congruence|].
    destruct S12 as [?|?]; [now left|]. destruct S23 as [?|?]; [|right; congruence].
    left. symmetry in H12.
    eapply (dyadic_eq_zero _ _ _ _ k); eauto; lia.
Qed.

Lemma float_eqb_refl f : float_eqb f f = true.
Proof.
  destruct f as [|a|s m e]; try reflexivity.
  - now destruct a.
  - apply (fin_eqb_spec s m e s m e e); try lia. auto.
Qed.

(** Key equality is an equivalence on the values that can be keys. *)
Lemma key_eqb_refl v : hashable v = true -> key_eqb v v = true.
Proof.
  destruct v; simpl; try congruence; intros _.
  - apply (float_eqb_refl (FFin false _ 0)).
  - apply (float_eqb_refl (FFin _ _ 0)).
  - apply float_eqb_refl.
  - apply String.eqb_refl.
Qed.

Lemma key_eqb_sym v w : key_eqb v w = key_eqb w v.
Proof.
  destruct v, w; try reflexivity;
    try (unfold key_eqb, as_float; apply float_eqb_sym).
  simpl. apply String.eqb_sym.
Qed.

Lemma key_eqb_trans u v w :
  key_eqb u v = true -> key_eqb v w = true -> key_eqb u w = true.
Proof.
  destruct u, v, w; try (simpl; congruence);
    try (unfold key_eqb, as_float; apply float_eqb_trans).
  simpl. rewrite !String.eqb_eq. congruence.
Qed.

(** Equal keys are equal to the same keys. *)
Lemma key_eqb_congr u v w :
  key_eqb u v = true -> key_eqb u w = key_eqb v w.
Proof.
  intros H. apply eq_true_iff_eq. split; intros H'.
  - rewrite key_eqb_sym in H. eauto using key_eqb_trans.
  - eauto using key_eqb_trans.
Qed.

End KeyFacts.

(** ** The counter against its description *)

Module CounterFacts.
Import Aggregator AggregatorFacts Reference KeyFacts.

Lemma counter_get_incr o k c :
  counter_get k (counter_incr o c) =
  counter_get k c + (if key_eqb o k then 1 else 0).
Proof.
  induction c as [|[k' n] c IH]; simpl.
  - destruct (key_eqb o k); lia.
  - destruct (key_eqb k' o) eqn:Ho; simpl.
    + rewrite (key_eqb_congr _ _ k Ho). destruct (key_eqb o k); lia.
    + destruct (key_eqb k' k) eqn:Hk; [|exact IH].
      destruct (key_eqb o k) eqn:Hok; [|lia].
      rewrite key_eqb_sym in Hok.
      rewrite (key_eqb_trans _ _ _ Hk Hok) in Ho. discriminate.
Qed.

Lemma counter_incr_fst o c :
  map fst (counter_incr o c) =
  if existsb (fun s => key_eqb s o) (map fst c) then map fst c
  else map fst c ++ [o].
Proof.
  induction c as [|[k' n] c IH]; simpl; [reflexivity|].
  destruct (key_eqb k' o); simpl; [reflexivity|].
  rewrite IH. now destruct (existsb _ _).
Qed.

Lemma counter_wf_incr o c :
  hashable o = true -> counter_wf c -> counter_wf (counter_incr o c).
Proof.
  intros Ho. induction c as [|[k' n] c IH]; simpl.
  - intros _. repeat split; auto. intros kv [].
  - intros (Hk & Hne & Hwf). destruct (key_eqb k' o) eqn:Heq; simpl.
    + repeat split; auto.
    + repeat split; auto. intros kv Hin.
      destruct (counter_incr_keys _ _ _ Hin) as [->|Hin'].
      * exact Heq.
      * apply in_map_iff in Hin' as (kv' & <- & Hkv'). auto.
Qed.

Lemma counter_get_in c : forall k n,
  counter_wf c -> In (k, n) c -> counter_get k c = n.
Proof.
  induction c as [|[k' n'] c IH]; simpl; intros k n Hwf Hin; [easy|].
  destruct Hwf as (Hk & Hne & Hwf). destruct Hin as [[= -> ->]|Hin].
  - now rewrite key_eqb_refl.
  - pose proof (Hne _ Hin) as Hk'. simpl in Hk'. rewrite Hk'. auto.
Qed.

Lemma valid_ids_valid d o anns :
  dict_get "obj_id" d = Some o ->
  valid_ids (PDict d :: anns) = o :: valid_ids anns.
Proof. intros H. simpl. now rewrite H. Qed.

Lemma valid_ids_invalid ann anns :
  valid_annotation ann = false ->
  valid_ids (ann :: anns) = valid_ids anns.
Proof.
  destruct ann as [| | | | | |d]; try reflexivity. simpl.
  now destruct (dict_get "obj_id" d).
Qed.

(** The inner loop is the bumping of the counter for one valid id after the
    other; it raises at the first annotation that fails, if there is one. *)
Lemma count_annotations_fold `{RT : PyRuntime} k anns : forall c,
  count_annotations k anns c =
  match first_failure (annotation_failure k) anns with
  | Some e => Raise e
  | None => Ok (fold_left (fun c o => counter_incr o c) (valid_ids anns) c)
  end.
Proof.
  induction anns as [|ann anns IH]; intros c; [reflexivity|].
  cbn [first_failure]. unfold annotation_failure at 1.
  destruct (valid_annotation ann) eqn:Hv.
  - destruct (valid_annotation_inv _ Hv) as (d & o & -> & Ho).
    rewrite (count_annotations_valid k d o anns c Ho), (valid_ids_valid _ _ _ Ho).
    cbn [hashable_annotation]. rewrite Ho.
    destruct (hashable o); [apply IH|reflexivity].
  - rewrite (count_annotations_invalid k ann anns c Hv), (valid_ids_invalid _ _ Hv).
    destruct (stdout_accepts (InvalidAnnotation k ann)); [apply IH|reflexivity].
Qed.

(** Where no annotation fails, every counted object id can be hashed. *)
Lemma no_failure_hashable `{RT : PyRuntime} k anns :
  first_failure (annotation_failure k) anns = None ->
  forallb hashable (valid_ids anns) = true.
Proof.
  induction anns as [|ann anns IH]; [reflexivity|].
  cbn [first_failure]. unfold annotation_failure at 1.
  destruct (valid_annotation ann) eqn:Hv.
  - destruct (valid_annotation_inv _ Hv) as (d & o & -> & Ho).
    rewrite (valid_ids_valid _ _ _ Ho). cbn [hashable_annotation]. rewrite Ho.
    destruct (hashable o) eqn:Hh; [|discriminate].
    intros H. simpl. rewrite Hh. now apply IH.
  - rewrite (valid_ids_invalid _ _ Hv).
    destruct (stdout_accepts (InvalidAnnotation k ann)); [exact IH|discriminate].
Qed.

Lemma fold_incr_get ids : forall c k,
  counter_get k (fold_left (fun c o => counter_incr o c) ids c) =
  counter_get k c + occurrences k ids.
Proof.
  induction ids as [|o ids IH]; intros c k; simpl; [lia|].
  rewrite IH, counter_get_incr. lia.
Qed.

Lemma fold_incr_wf ids : forall c,
  forallb hashable ids = true -> counter_wf c ->
  counter_wf (fold_left (fun c o => counter_incr o c) ids c).
Proof.
  induction ids as [|o ids IH]; intros c H Hwf; simpl; [exact Hwf|].
  simpl in H. apply andb_prop in H as [Ho H].
  apply IH; auto using counter_wf_incr.
Qed.

(** The keys come in the order in which the ids are first seen; [seen] may
    hold any ids equal to keys the counter has. *)
Lemma fold_incr_fst ids : forall c seen,
  (forall x, existsb (fun s => key_eqb s x) seen =
             existsb (fun s => key_eqb s x) (map fst c)) ->
  map fst (fold_left (fun c o => counter_incr o c) ids c) =
  map fst c ++ first_seen seen ids.
Proof.
  induction ids as [|o ids IH]; intros c seen Hseen; simpl.
  - now rewrite app_nil_r.
  - rewrite (IH _ (seen ++ [o])).
    + rewrite counter_incr_fst, Hseen.
      destruct (existsb _ (map fst c)); [reflexivity|].
      now rewrite <- app_assoc.
    + intros x. rewrite counter_incr_fst, existsb_app, Hseen. simpl.
      rewrite orb_false_r.
      destruct (existsb (fun s => key_eqb s o) (map fst c)) eqn:Hex.
      * destruct (key_eqb o x) eqn:Hox; [|now rewrite orb_false_r].
        rewrite orb_true_r. symmetry.
        apply existsb_exists in Hex as (r & Hr & Hro).
        apply existsb_exists. exists r. split; [exact Hr|].
        eauto using key_eqb_trans.
      * rewrite existsb_app. simpl. now rewrite orb_false_r.
Qed.

Lemma counter_as_map c :
  counter_wf c ->
  c = map (fun k => (k, counter_get k c)) (map fst c).
Proof.
  intros Hwf.
  assert (H : forall c0, (forall kv, In kv c0 -> In kv c) ->
              c0 = map (fun k => (k, counter_get k c)) (map fst c0)).
  { induction c0 as [|[k n] c0 IH]; intros Hsub; simpl; [reflexivity|].
    rewrite (counter_get_in c k n Hwf) by (apply Hsub; now left).
    f_equal. apply IH. intros kv Hkv. apply Hsub. now right. }
  apply H. auto.
Qed.

End CounterFacts.

(** ** More on the aggregation loop *)

Module AggregatorExtras.
Import FS Aggregator Scene Reference AggregatorFacts KeyFacts CounterFacts Samples.

Section WithRuntime.
Context `{RT : PyRuntime}.

Lemma entry_counter ids :
  forallb hashable ids = true ->
  let c := fold_left (fun c o => counter_incr o c) ids [] in
  counter_wf c /\
  c = map (fun o => (o, occurrences o ids)) (first_seen [] ids).
Proof.
  intros Hh c.
  assert (Hwf : counter_wf c) by (apply fold_incr_wf; simpl; auto).
  split; [exact Hwf|].
  assert (Hfst : map fst c = first_seen [] ids).
  { unfold c. now rewrite (fold_incr_fst ids [] []). }
  rewrite (counter_as_map c Hwf) at 1. rewrite Hfst.
  apply map_ext. intros o. unfold c. now rewrite fold_incr_get.
Qed.

Lemma counter_targets_distinct scene i c :
  counter_wf c ->
  ForallOrdPairs (fun t u => key_eqb (obj_id t) (obj_id u) = false)
    (counter_targets scene i c).
Proof.
  induction c as [|[k n] c IH]; simpl; intros Hwf; constructor.
  - destruct Hwf as (_ & Hne & _). apply List.Forall_forall.
    intros t Ht. apply in_map_iff in Ht as (kv & <- & Hkv). simpl. auto.
  - apply IH. tauto.
Qed.

End WithRuntime.

Section Image.
Context `{RT : PyRuntime}.

(** The records of an image against [image_records]. *)
Lemma entry_targets_spec scene im_id_str i anns :
  int_of_key im_id_str = Some i ->
  entry_targets scene (im_id_str, PList anns) =
  match first_failure (annotation_failure im_id_str) anns with
  | Some e => Raise e
  | None => Ok (image_records scene i anns)
  end.
Proof.
  intros Hk. unfold entry_targets. simpl. rewrite Hk.
  rewrite count_annotations_fold.
  destruct (first_failure (annotation_failure im_id_str) anns) eqn:Hf;
    [reflexivity|].
  simpl. f_equal.
  destruct (entry_counter _ (no_failure_hashable _ _ Hf)) as [_ Hc].
  rewrite Hc. unfold counter_targets, image_records.
  now rewrite map_map.
Qed.

Lemma no_failure_iff im_id_str anns :
  first_failure (annotation_failure im_id_str) anns = None <->
  forallb hashable_annotation anns = true /\
  forallb (reportable_annotation im_id_str) anns = true.
Proof.
  induction anns as [|ann anns IH]; [simpl; tauto|].
  cbn [first_failure forallb].
  unfold annotation_failure at 1, reportable_annotation at 1.
  rewrite !andb_true_iff.
  destruct (valid_annotation ann) eqn:Hv.
  - destruct (hashable_annotation ann); simpl; [tauto|].
    split; [discriminate|]. intros [[? _] _]. discriminate.
  - assert (Hh : hashable_annotation ann = true).
    { destruct ann as [| | | | | |d]; try reflexivity. simpl in Hv |- *.
      now destruct (dict_get "obj_id" d). }
    rewrite Hh. simpl.
    destruct (stdout_accepts (InvalidAnnotation im_id_str ann)); [tauto|].
    split; [discriminate|]. intros [_ [? _]]. discriminate.
Qed.

End Image.

(** X3: for an image with an integer key the inner loop ends at the first
    annotation that fails: a valid one whose object id cannot be hashed
    ([TypeError]), or an invalid one whose warning the standard output does
    not take (what [print] raises).  Without such an annotation, that is
    when every object id can be hashed and every warning printed, the
    records are those of [image_records]: one for each distinct object id,
    in the order in which the ids first occur among the valid annotations,
    each with the number of valid annotations carrying an equal id. *)
Theorem entry_targets_reference `{RT : PyRuntime} scene im_id_str i anns :
  int_of_key im_id_str = Some i ->
  entry_targets scene (im_id_str, PList anns) =
    match first_failure (annotation_failure im_id_str) anns with
    | Some e => Raise e
    | None => Ok (image_records scene i anns)
    end /\
  (first_failure (annotation_failure im_id_str) anns = None <->
   forallb hashable_annotation anns = true /\
   forallb (reportable_annotation im_id_str) anns = true).
Proof.
  intros Hk. split; [now apply entry_targets_spec|apply no_failure_iff].
Qed.

Lemma entry_targets_reference_witness :
  @int_of_key sample_runtime "7" = Some 7 /\
  (@entry_targets sample_runtime 4 ("7", PList mixed_annotations) =
     match @first_failure pyval (@annotation_failure sample_runtime "7")
             mixed_annotations with
     | Some e => Raise e
     | None => Ok (image_records 4 7 mixed_annotations)
     end /\
   (@first_failure pyval (@annotation_failure sample_runtime "7")
      mixed_annotations = None <->
    forallb hashable_annotation mixed_annotations = true /\
    forallb (@reportable_annotation sample_runtime "7") mixed_annotations
      = true)) /\
  @entry_targets sample_runtime 4 ("7", PList mixed_annotations) =
    Ok [mk_target 4 7 (PInt 5) 3; mk_target 4 7 (PStr "a") 2;
        mk_target 4 7 (PBool true) 2] /\
  @entry_targets sample_runtime 4
    ("7", PList [ann (PInt 5); PStr lone_surrogate; ann (PInt 5)])
    = Raise UnicodeEncodeError.
Proof.
  split; [reflexivity|]. split; [|split; reflexivity].
  exact (@entry_targets_reference sample_runtime 4 "7" 7 mixed_annotations
           eq_refl).
Defined.

(** X1: the [inst_count] of a record is the number of valid annotations of
    its image whose object id equals the record's, as Python compares keys
    (so 5 and 5.0, or 1 and true, are one object). *)
Theorem inst_count_is_number_of_equal_ids `{RT : PyRuntime} scene im_id_str i
    anns recs :
  int_of_key im_id_str = Some i ->
  entry_targets scene (im_id_str, PList anns) = Ok recs ->
  forall t, In t recs ->
    scene_id t = scene /\ im_id t = i /\
    inst_count t = occurrences (obj_id t) (valid_ids anns).
Proof.
  intros Hk H t Ht. rewrite (entry_targets_spec _ _ _ _ Hk) in H.
  destruct (first_failure (annotation_failure im_id_str) anns); [discriminate|].
  injection H as <-. unfold image_records in Ht.
  apply in_map_iff in Ht as (o & <- & _). simpl. auto.
Qed.

Lemma inst_count_is_number_of_equal_ids_witness :
  @int_of_key sample_runtime "7" = Some 7 /\
  @entry_targets sample_runtime 4 ("7", PList mixed_annotations) =
    Ok [mk_target 4 7 (PInt 5) 3; mk_target 4 7 (PStr "a") 2;
        mk_target 4 7 (PBool true) 2] /\
  forall t,
    In t [mk_target 4 7 (PInt 5) 3; mk_target 4 7 (PStr "a") 2;
          mk_target 4 7 (PBool true) 2] ->
    scene_id t = 4 /\ im_id t = 7 /\
    inst_count t = occurrences (obj_id t) (valid_ids mixed_annotations).
Proof.
  split; [reflexivity|]. split; [reflexivity|].
  apply (@inst_count_is_number_of_equal_ids sample_runtime 4 "7" 7
           mixed_annotations); reflexivity.
Defined.

(** X2: no two records of one image are for equal object ids. *)
Theorem records_of_an_image_are_distinct `{RT : PyRuntime} scene entry recs :
  entry_targets scene entry = Ok recs ->
  ForallOrdPairs (fun t u => key_eqb (obj_id t) (obj_id u) = false) recs.
Proof.
  destruct entry as [k v]. intros H.
  destruct (entry_targets_inv _ _ _ _ H)
    as [->|(i & anns & c & Hk & -> & Hc & ->)]; [constructor|].
  rewrite count_annotations_fold in Hc.
  destruct (first_failure (annotation_failure k) anns) eqn:Hf; [discriminate|].
  injection Hc as <-. apply counter_targets_distinct.
  now apply (entry_counter _ (no_failure_hashable _ _ Hf)).
Qed.

Lemma records_of_an_image_are_distinct_witness :
  @entry_targets sample_runtime 4 ("7", PList mixed_annotations) =
    Ok [mk_target 4 7 (PInt 5) 3; mk_target 4 7 (PStr "a") 2;
        mk_target 4 7 (PBool true) 2] /\
  ForallOrdPairs (fun t u => key_eqb (obj_id t) (obj_id u) = false)
    [mk_target 4 7 (PInt 5) 3; mk_target 4 7 (PStr "a") 2;
     mk_target 4 7 (PBool true) 2].
Proof.
  split; [reflexivity|].
  apply (@records_of_an_image_are_distinct sample_runtime 4
           ("7", PList mixed_annotations)). reflexivity.
Defined.

Section Loop.
Context `{RT : PyRuntime}.

Lemma valid_ids_filter anns :
  valid_ids (List.filter valid_annotation anns) = valid_ids anns.
Proof.
  induction anns as [|a anns IH]; simpl; [reflexivity|].
  destruct a as [| | | | | |d]; simpl; auto.
  destruct (dict_get "obj_id" d) as [o|] eqn:Ho; simpl; auto.
  now rewrite Ho, IH.
Qed.

(** Taking out the invalid annotations whose warnings print leaves the
    first failure where it was. *)
Lemma first_failure_filter k anns :
  forallb (reportable_annotation k) anns = true ->
  first_failure (annotation_failure k) (List.filter valid_annotation anns) =
  first_failure (annotation_failure k) anns.
Proof.
  induction anns as [|a anns IH]; [reflexivity|].
  cbn [forallb List.filter first_failure]. intros H.
  apply andb_prop in H as [Ha H].
  unfold reportable_annotation in Ha.
  destruct (valid_annotation a) eqn:Hv.
  - cbn [first_failure]. now rewrite (IH H).
  - simpl in Ha. unfold annotation_failure at 2. rewrite Hv, Ha. exact (IH H).
Qed.

Lemma entry_targets_records scene entry :
  entry_targets scene entry =
  match entry_failure entry with
  | Some e => Raise e
  | None => Ok (entry_records scene entry)
  end.
Proof.
  destruct entry as [k v].
  destruct (int_of_key k) as [i|] eqn:Hk.
  - destruct v as [| | | | |anns|];
      try (unfold entry_failure, skip_warning, entry_records, entry_targets,
             print; simpl fst; simpl snd; rewrite Hk;
           now destruct (stdout_accepts _)).
    rewrite (entry_targets_spec scene k i anns Hk).
    unfold entry_failure, skip_warning, entry_records. simpl fst. simpl snd.
    now rewrite Hk.
  - unfold entry_failure, skip_warning, entry_records, entry_targets, print.
    simpl fst. simpl snd. rewrite Hk. now destruct (stdout_accepts _).
Qed.

Lemma targets_loop_records scene items : forall acc,
  targets_loop scene items acc =
  match first_failure entry_failure items with
  | Some e => Raise e
  | None => Ok (acc ++ concat (map (entry_records scene) items))
  end.
Proof.
  induction items as [|e items IH]; intros acc.
  - simpl. now rewrite app_nil_r.
  - rewrite targets_loop_cons, entry_targets_records. cbn [first_failure].
    destruct (entry_failure e); [reflexivity|].
    cbn [bind]. rewrite IH.
    destruct (first_failure entry_failure items); [reflexivity|].
    simpl. now rewrite app_assoc.
Qed.

Lemma sum_inst_count_app l1 l2 :
  sum_inst_count (l1 ++ l2) = sum_inst_count l1 + sum_inst_count l2.
Proof.
  unfold sum_inst_count. induction l1 as [|t l1 IH]; simpl; lia.
Qed.

Lemma counted_annotations_cons k v items :
  counted_annotations ((k, v) :: items) =
  match int_of_key k, v with
  | Some _, PList anns => count_valid anns + counted_annotations items
  | _, _ => counted_annotations items
  end.
Proof. reflexivity. Qed.

Lemma targets_loop_sum scene items : forall acc out,
  targets_loop scene items acc = Ok out ->
  sum_inst_count out = sum_inst_count acc + counted_annotations items.
Proof.
  induction items as [|[k v] items IH]; intros acc out H.
  - injection H as <-. simpl. lia.
  - rewrite targets_loop_cons in H.
    destruct (entry_targets scene (k, v)) as [recs|e] eqn:He; [|discriminate].
    cbn [bind] in H. rewrite (IH _ _ H), sum_inst_count_app.
    rewrite counted_annotations_cons.
    destruct (int_of_key k) as [i|] eqn:Hk.
    + destruct v as [| | | | |anns|];
        try (unfold entry_targets, print in He; simpl in He; rewrite Hk in He;
             destruct (stdout_accepts _); [|discriminate He];
             injection He as <-; change (sum_inst_count []) with 0; lia).
      rewrite (entry_targets_sum scene k i anns recs Hk He). lia.
    + unfold entry_targets, print in He. simpl in He. rewrite Hk in He.
      destruct (stdout_accepts _); [|discriminate He].
      injection He as <-. change (sum_inst_count []) with 0.
      destruct v; lia.
Qed.

(** An item the loop passes over with a warning that prints adds no record
    and changes nothing for the other items. *)
Lemma skipped_entry scene entry w :
  skip_warning entry = Some w ->
  stdout_accepts w = true ->
  entry_targets scene entry = Ok [] /\
  forall items1 items2,
    aggregate scene (PDict (items1 ++ entry :: items2)) =
    aggregate scene (PDict (items1 ++ items2)).
Proof.
  intros Hw Hp.
  assert (He : entry_targets scene entry = Ok []).
  { rewrite entry_targets_records.
    unfold entry_failure, entry_records. rewrite Hw, Hp.
    unfold skip_warning in Hw.
    destruct (int_of_key (fst entry)); [|reflexivity].
    destruct (snd entry); try reflexivity. discriminate Hw. }
  split; [exact He|]. intros items1 items2.
  unfold aggregate. rewrite !targets_loop_app.
  destruct (targets_loop scene items1 []) as [acc|e]; cbn [bind]; auto.
  rewrite targets_loop_cons, He. cbn [bind]. now rewrite app_nil_r.
Qed.

End Loop.

(** X4: an item whose value is no list adds no record and changes nothing
    for the other items, whatever its key, provided the warning it is
    passed over with (line 95 for a key that is no integer, line 99
    otherwise) can be printed. *)
Theorem non_list_value_is_skipped `{RT : PyRuntime} scene items1 k v items2 w :
  is_list v = false ->
  skip_warning (k, v) = Some w ->
  stdout_accepts w = true ->
  entry_targets scene (k, v) = Ok [] /\
  aggregate scene (PDict (items1 ++ (k, v) :: items2)) =
  aggregate scene (PDict (items1 ++ items2)).
Proof.
  intros _ Hw Hp. destruct (skipped_entry scene (k, v) w Hw Hp) as [He Ha].
  split; [exact He|apply Ha].
Qed.

Lemma non_list_value_is_skipped_witness :
  is_list (PDict [("obj_id", PInt 9)]) = false /\
  @skip_warning sample_runtime ("1", PDict [("obj_id", PInt 9)])
    = Some (AnnotationsAreNoList "1" (PDict [("obj_id", PInt 9)])) /\
  @stdout_accepts sample_runtime
    (AnnotationsAreNoList "1" (PDict [("obj_id", PInt 9)])) = true /\
  @entry_targets sample_runtime 4 ("1", PDict [("obj_id", PInt 9)]) = Ok [] /\
  @aggregate sample_runtime 4
    (PDict ([("0", PList [ann (PInt 5)])]
            ++ ("1", PDict [("obj_id", PInt 9)])
               :: [("2", PList [ann (PInt 7)])])) =
  @aggregate sample_runtime 4
    (PDict ([("0", PList [ann (PInt 5)])] ++ [("2", PList [ann (PInt 7)])])).
Proof.
  split; [reflexivity|]. split; [reflexivity|]. split; [reflexivity|].
  apply (@non_list_value_is_skipped sample_runtime 4
           [("0", PList [ann (PInt 5)])] "1" (PDict [("obj_id", PInt 9)])
           [("2", PList [ann (PInt 7)])]
           (AnnotationsAreNoList "1" (PDict [("obj_id", PInt 9)])));
    reflexivity.
Defined.

(** X5: annotations that are no dict or have no ["obj_id"] change nothing
    when their warnings (line 107) can be printed: an image gives the same
    records, or the same exception, with them and without them. *)
Theorem invalid_annotations_are_ignored `{RT : PyRuntime} scene im_id_str anns :
  forallb (reportable_annotation im_id_str) anns = true ->
  entry_targets scene (im_id_str, PList anns) =
  entry_targets scene (im_id_str, PList (List.filter valid_annotation anns)).
Proof.
  intros Hp. unfold entry_targets. simpl.
  destruct (int_of_key im_id_str); auto.
  now rewrite !count_annotations_fold, valid_ids_filter, first_failure_filter.
Qed.

Lemma invalid_annotations_are_ignored_witness :
  forallb (@reportable_annotation sample_runtime "7") mixed_annotations = true /\
  List.filter valid_annotation mixed_annotations =
    [ann (PInt 5); ann (PStr "a"); ann (PFloat (FFin false 5 0));
     ann (PBool true); ann (PInt 1); ann (PStr "a");
     ann (PFloat (FFin false 5 0))] /\
  @entry_targets sample_runtime 4 ("7", PList mixed_annotations) =
  @entry_targets sample_runtime 4
    ("7", PList (List.filter valid_annotation mixed_annotations)).
Proof.
  split; [reflexivity|]. split; [reflexivity|].
  apply (@invalid_annotations_are_ignored sample_runtime 4 "7"
           mixed_annotations). reflexivity.
Defined.

(** X6: the records of a mapping are those of its first items followed by
    those of the rest; an exception in the first part ends the loop before
    the rest is looked at. *)
Theorem aggregate_of_appended_items `{RT : PyRuntime} scene items1 items2 :
  aggregate scene (PDict (items1 ++ items2)) =
  match aggregate scene (PDict items1) with
  | Targets t1 =>
      match aggregate scene (PDict items2) with
      | Targets t2 => Targets (t1 ++ t2)
      | other => other
      end
  | other => other
  end.
Proof.
  unfold aggregate. rewrite targets_loop_app.
  destruct (targets_loop scene items1 []) as [t1|e]; simpl; auto.
  rewrite targets_loop_acc.
  destruct (targets_loop scene items2 []); reflexivity.
Qed.

(** X7: the whole loop against its description: it ends with the exception
    of the first item that fails, which is [TypeError] for a valid
    annotation with an unhashable object id and what [print] raises for a
    warning (of line 95, 99 or 107) that the standard output does not take;
    without such an item it leaves the records of the items, item after item
    in the order of the mapping. *)
Theorem aggregate_reference `{RT : PyRuntime} scene items :
  aggregate scene (PDict items) =
  match first_failure entry_failure items with
  | Some e => Uncaught e
  | None => Targets (concat (map (entry_records scene) items))
  end.
Proof.
  unfold aggregate. rewrite targets_loop_records.
  now destruct (first_failure entry_failure items).
Qed.

(** X8: the [inst_count]s of all records add up to the number of valid
    annotations in the items the loop does not skip. *)
Theorem total_inst_count `{RT : PyRuntime} scene items targets :
  aggregate scene (PDict items) = Targets targets ->
  sum_inst_count targets = counted_annotations items.
Proof.
  unfold aggregate. intros H.
  destruct (targets_loop scene items []) as [out|] eqn:Hl; [|discriminate].
  injection H as <-. now rewrite (targets_loop_sum _ _ _ _ Hl).
Qed.

Lemma total_inst_count_witness :
  @aggregate sample_runtime 4 (PDict gt_with_bad_key) =
    Targets [mk_target 4 0 (PInt 5) 1; mk_target 4 2 (PInt 7) 2] /\
  sum_inst_count [mk_target 4 0 (PInt 5) 1; mk_target 4 2 (PInt 7) 2] =
  @counted_annotations sample_runtime gt_with_bad_key.
Proof.
  split; [reflexivity|].
  apply (@total_inst_count sample_runtime 4 gt_with_bad_key). reflexivity.
Defined.

(** X9: when every object id of an image can be hashed and the warning of
    every invalid annotation can be printed, the records of the image are
    produced and their [inst_count]s add up to its valid annotations. *)
Theorem hashable_image_sum `{RT : PyRuntime} scene im_id_str i anns :
  int_of_key im_id_str = Some i ->
  forallb hashable_annotation anns = true ->
  forallb (reportable_annotation im_id_str) anns = true ->
  exists recs,
    entry_targets scene (im_id_str, PList anns) = Ok recs /\
    sum_inst_count recs = count_valid anns.
Proof.
  intros Hk Hh Hp.
  destruct (entry_targets_ok scene im_id_str i anns Hk Hh Hp) as [recs H].
  exists recs. split; [exact H|]. exact (entry_targets_sum _ _ _ _ _ Hk H).
Qed.

Lemma hashable_image_sum_witness :
  exists recs,
    @entry_targets sample_runtime 4 ("7", PList mixed_annotations) = Ok recs /\
    sum_inst_count recs = count_valid mixed_annotations.
Proof.
  apply (@hashable_image_sum sample_runtime 4 "7" 7 mixed_annotations);
    reflexivity.
Defined.

(** X21: an item whose key is no integer adds no record, and the mapping
    with the item gives what the mapping without it gives (the same records
    for all other items, the same way of ending), provided the warning of
    line 95 can be printed. *)
Theorem printable_non_integer_key_is_skipped `{RT : PyRuntime} scene items1 k v
    items2 :
  int_of_key k = None ->
  stdout_accepts (KeyIsNoInteger k) = true ->
  entry_targets scene (k, v) = Ok [] /\
  aggregate scene (PDict (items1 ++ (k, v) :: items2)) =
  aggregate scene (PDict (items1 ++ items2)).
Proof.
  intros Hk Hp.
  assert (Hw : skip_warning (k, v) = Some (KeyIsNoInteger k)).
  { unfold skip_warning. simpl. now rewrite Hk. }
  destruct (skipped_entry scene (k, v) _ Hw Hp) as [He Ha].
  split; [exact He|apply Ha].
Qed.

Lemma printable_non_integer_key_is_skipped_witness :
  @int_of_key sample_runtime "abc" = None /\
  @stdout_accepts sample_runtime (KeyIsNoInteger "abc") = true /\
  @entry_targets sample_runtime 4 ("abc", PList [ann (PInt 9)]) = Ok [] /\
  @aggregate sample_runtime 4 (PDict gt_with_bad_key) =
  @aggregate sample_runtime 4
    (PDict [("0", PList [ann (PInt 5)]);
            ("2", PList [ann (PInt 7); ann (PInt 7)])]).
Proof.
  split; [reflexivity|]. split; [reflexivity|].
  apply (@printable_non_integer_key_is_skipped sample_runtime 4
           [("0", PList [ann (PInt 5)])] "abc" (PList [ann (PInt 9)])
           [("2", PList [ann (PInt 7); ann (PInt 7)])]); reflexivity.
Defined.

End AggregatorExtras.

(** ** More on the resolver *)

Module SceneExtras.
Import FS Aggregator Scene SceneReference SceneFacts Samples.

Lemma lookup_insert_exists (fs : gmap string node) t nd p :
  exists_ fs p = true -> exists_ (<[t := nd]> fs) p = true.
Proof.
  unfold exists_. destruct (decide (t = p)) as [->|Hne].
  - now rewrite lookup_insert_eq.
  - now rewrite lookup_insert_ne.
Qed.

(** A turn changes the file system by at most one file written where no
    directory is. *)
Lemma prepare_file_effect scene_path sensor_suffix key std_name st :
  let st' := state_of (prepare_file scene_path sensor_suffix key std_name st) in
  r_fs st' = r_fs st \/
  exists c x,
    isdir (r_fs st) (path_join scene_path std_name +:+ x) = false /\
    r_fs st' = <[path_join scene_path std_name +:+ x := File c]> (r_fs st).
Proof.
  simpl. unfold prepare_file.
  destruct (negb (exists_ _ _)).
  - destruct (_ && _); now left.
  - destruct (negb (String.eqb _ _)); [|now left].
    destruct (copy2 _ _ _) as [fs'|] eqn:Hcopy.
    + right. unfold copy2 in Hcopy.
      destruct (r_fs st !! _) as [[c|]|]; try discriminate.
      destruct (String.eqb _ _); [discriminate|].
      destruct (isdir (r_fs st) (copy_target _ _ _)) eqn:Hdir; [discriminate|].
      injection Hcopy as <-.
      destruct (copy_target_shape (r_fs st)
                  (path_join scene_path
                     (actual_src_name key std_name sensor_suffix))
                  (path_join scene_path std_name)) as [x Hx].
      exists c, x. rewrite <- Hx. auto.
    + destruct (String.eqb key "gt"); now left.
Qed.

Lemma prepare_loop_effect scene_path sensor_suffix files : forall st p,
  let st' := state_of (prepare_loop scene_path sensor_suffix files st) in
  (exists_ (r_fs st) p = true -> exists_ (r_fs st') p = true) /\
  (isdir (r_fs st) p = true -> isdir (r_fs st') p = true) /\
  ((forall key std_name x,
       In (key, std_name) files -> p <> path_join scene_path std_name +:+ x) ->
   r_fs st' !! p = r_fs st !! p).
Proof.
  induction files as [|[key std_name] files IH]; intros st p; simpl.
  - auto.
  - pose proof (prepare_file_effect scene_path sensor_suffix key std_name st)
      as Heff. simpl in Heff.
    destruct (prepare_file scene_path sensor_suffix key std_name st)
      as [st1|o st1]; simpl in Heff.
    + destruct (IH st1 p) as (IHe & IHd & IHf). simpl in IHe, IHd, IHf.
      destruct Heff as [Hfs|(c & x & Hdir & Hfs)]; rewrite Hfs in *.
      * repeat split; auto. intros H. apply IHf. eauto.
      * repeat split.
        -- intros H. apply IHe. now apply lookup_insert_exists.
        -- intros H. apply IHd. unfold isdir in *.
           destruct (decide (path_join scene_path std_name +:+ x = p))
             as [Heq|Hne]; [subst p; congruence|now rewrite lookup_insert_ne].
        -- intros H. rewrite IHf by eauto.
           apply lookup_insert_ne. intros Heq. eapply H; eauto.
    + simpl. destruct Heff as [Hfs|(c & x & Hdir & Hfs)]; rewrite Hfs.
      * auto.
      * repeat split.
        -- now apply lookup_insert_exists.
        -- unfold isdir in *.
           destruct (decide (path_join scene_path std_name +:+ x = p))
             as [Heq|Hne]; [subst p; congruence|now rewrite lookup_insert_ne].
        -- intros H. apply lookup_insert_ne. intros Heq. eapply H; eauto.
Qed.

Lemma state_of_resolve scene_path sensor_suffix fs :
  state_of (resolve scene_path sensor_suffix fs) =
  state_of (prepare_loop scene_path sensor_suffix standard_files_to_prepare
              (mk_rstate fs false [])).
Proof.
  unfold resolve. destruct (prepare_loop _ _ _ _); [|reflexivity].
  now destruct (_ && _).
Qed.

(** What the resolver does to a path, however it ends. *)
Lemma resolve_effect fs scene_path sensor_suffix p :
  (exists_ fs p = true ->
   exists_ (r_fs (state_of (resolve scene_path sensor_suffix fs))) p = true) /\
  (isdir fs p = true ->
   isdir (r_fs (state_of (resolve scene_path sensor_suffix fs))) p = true) /\
  (~ at_standard_path scene_path p ->
   r_fs (state_of (resolve scene_path sensor_suffix fs)) !! p = fs !! p).
Proof.
  rewrite state_of_resolve.
  destruct (prepare_loop_effect scene_path sensor_suffix
              standard_files_to_prepare (mk_rstate fs false []) p)
    as (He & Hd & Hf). simpl in He, Hd, Hf.
  repeat split; auto.
  intros Hno. apply Hf. intros key std_name x Hin ->. apply Hno.
  now exists key, std_name, x.
Qed.

(** X12: the resolver never removes anything and never replaces a
    directory, and whatever it changes lies at the standard path of one of
    the three kinds or continues such a path: every other path is as it
    was, however the resolver ends. *)
Theorem resolver_only_writes_standard_paths fs scene_path sensor_suffix p :
  let st := state_of (resolve scene_path sensor_suffix fs) in
  (exists_ fs p = true -> exists_ (r_fs st) p = true) /\
  (isdir fs p = true -> isdir (r_fs st) p = true) /\
  (~ at_standard_path scene_path p -> r_fs st !! p = fs !! p).
Proof. simpl. apply resolve_effect. Qed.

(** X10: without a sensor suffix the resolver copies nothing and leaves the
    file system as it is, whatever is in it: it goes on exactly when the
    standard ground truth exists, and ends at line 51 otherwise; the camera
    and gt_info files play no part. *)
Theorem resolve_without_suffix fs scene_path :
  resolve scene_path "" fs =
  if exists_ fs (path_join scene_path "scene_gt.json")
  then Next (mk_rstate fs true [])
  else Return GtMissing (mk_rstate fs false []).
Proof.
  rewrite resolve_turns, turn_without_suffix. simpl r_fs.
  change (String.eqb "camera" "gt") with false. cbv iota.
  assert (Hcam : (if exists_ fs (path_join scene_path "scene_camera.json")
                  then Next (mk_rstate fs false [])
                  else Next (mk_rstate fs false []))
                 = Next (mk_rstate fs false []))
    by now destruct (exists_ _ _).
  simpl r_gt_prepared. simpl r_copies. rewrite Hcam.
  rewrite turn_without_suffix. simpl r_fs.
  destruct (exists_ fs (path_join scene_path "scene_gt.json")) eqn:Hgt;
    [|reflexivity].
  change (String.eqb "gt" "gt") with true. cbv iota.
  rewrite turn_without_suffix. simpl.
  unfold final_gt_file_for_targets.
  destruct (exists_ fs (path_join scene_path "scene_gt_info.json"));
    simpl; now rewrite Hgt.
Qed.

Lemma turn_exists src dst st st' p :
  turn src dst st st' ->
  exists_ (r_fs st) p = true -> exists_ (r_fs st') p = true.
Proof.
  intros [->|H _|c _ H _]; try rewrite H; auto.
  apply lookup_insert_exists.
Qed.

(** The turn of the ground truth either ends the call or leaves a standard
    ground truth behind. *)
Lemma gt_turn_cases scene_path sensor_suffix st :
  match prepare_file scene_path sensor_suffix "gt" "scene_gt.json" st with
  | Next st' => exists_ (r_fs st') (path_join scene_path "scene_gt.json") = true
  | Return o _ => o = GtMissing \/ o = GtCopyFailed
  end.
Proof.
  unfold prepare_file.
  change (String.eqb "gt" "gt") with true. cbv iota.
  destruct (exists_ (r_fs st) (path_join scene_path _)) eqn:Hsrc; simpl.
  - destruct (String.eqb _ _) eqn:Heq; simpl.
    + apply String.eqb_eq in Heq. now rewrite <- Heq.
    + destruct (copy2 _ _ _) as [fs'|] eqn:Hcopy; [|auto].
      apply copy2_spec in Hcopy as (c & _ & ->). simpl.
      unfold copy_target.
      destruct (isdir (r_fs st) (path_join scene_path "scene_gt.json")) eqn:Hd.
      * apply lookup_insert_exists. unfold isdir in Hd. unfold exists_.
        now destruct (r_fs st !! _).
      * unfold exists_. now rewrite lookup_insert_eq.
  - destruct (exists_ (r_fs st) (path_join scene_path "scene_gt.json"))
      eqn:Hdst; simpl; auto.
Qed.

(** The ways the resolver ends. *)
Lemma resolve_cases fs scene_path sensor_suffix :
  match resolve scene_path sensor_suffix fs with
  | Next st =>
      exists_ (r_fs st) (final_gt_file_for_targets scene_path) = true
  | Return o _ => o = GtMissing \/ o = GtCopyFailed
  end.
Proof.
  rewrite resolve_turns.
  destruct (prepare_file_optional scene_path sensor_suffix "camera"
              "scene_camera.json" (mk_rstate fs false []) eq_refl)
    as (st1 & -> & _ & _).
  pose proof (gt_turn_cases scene_path sensor_suffix st1) as Hgt.
  destruct (prepare_file scene_path sensor_suffix "gt" "scene_gt.json" st1)
    as [st2|o st2]; [|exact Hgt].
  destruct (prepare_file_optional scene_path sensor_suffix "gt_info"
              "scene_gt_info.json" st2 eq_refl)
    as (st3 & -> & _ & Hturn).
  unfold final_gt_file_for_targets.
  pose proof (turn_exists _ _ _ _ _ Hturn Hgt) as Hgt3.
  rewrite Hgt3. simpl. exact Hgt3.
Qed.

(** X11: the resolver ends the call only at line 51 or at line 62; when it
    goes on, the standard ground truth exists, so the check of lines 70-73
    never ends the call. *)
Theorem resolver_exits fs scene_path sensor_suffix :
  match resolve scene_path sensor_suffix fs with
  | Next st =>
      exists_ (r_fs st) (final_gt_file_for_targets scene_path) = true
  | Return o _ => o = GtMissing \/ o = GtCopyFailed
  end.
Proof. apply resolve_cases. Qed.

Lemma length_append a b :
  String.length (a +:+ b) = (String.length a + String.length b)%nat.
Proof.
  induction a as [|x a IH]; [reflexivity|].
  rewrite append_cons. simpl. now rewrite IH.
Qed.

Lemma append_inv_tail a : forall b c, a +:+ c = b +:+ c -> a = b.
Proof.
  induction a as [|x a IH]; intros [|y b] c H.
  - reflexivity.
  - apply (f_equal String.length) in H. rewrite !length_append in H.
    simpl in H. lia.
  - apply (f_equal String.length) in H. rewrite !length_append in H.
    simpl in H. lia.
  - rewrite !append_cons in H. injection H as -> H. f_equal. eauto.
Qed.

(** X13: the name of a sensor's file is never the standard name of a kind,
    with one exception: for the suffix [info] the sensor's ground truth is
    called like the standard gt_info file. *)
Theorem sensor_name_is_standard_name key std_name key' std_name'
    sensor_suffix :
  In (key, std_name) standard_files_to_prepare ->
  In (key', std_name') standard_files_to_prepare ->
  src_name_with_suffix key sensor_suffix = std_name' <->
  key = "gt" /\ sensor_suffix = "info" /\ std_name' = "scene_gt_info.json".
Proof.
  intros Hin Hin'.
  assert (Hinfo :
            src_name_with_suffix "gt" sensor_suffix = "scene_gt_info.json" ->
            sensor_suffix = "info").
  { intros H. apply (append_inv_tail _ _ ".json").
    unfold src_name_with_suffix in H.
    change ("scene_" +:+ "gt" +:+ "_" +:+ sensor_suffix +:+ ".json")
      with ("scene_gt_" +:+ (sensor_suffix +:+ ".json")) in H.
    change "scene_gt_info.json" with ("scene_gt_" +:+ ("info" +:+ ".json"))
      in H.
    now apply append_inv_head in H. }
  destruct Hin as [H|[H|[H|[]]]]; injection H as <- <-;
    destruct Hin' as [H'|[H'|[H'|[]]]]; injection H' as <- <-;
    (split; [intros H|intros (Hk & Hs & Hn)]);
    try discriminate H; try discriminate Hk; try discriminate Hn.
  - auto.
  - now subst sensor_suffix.
Qed.

Lemma sensor_name_is_standard_name_witness :
  In ("gt", "scene_gt.json") standard_files_to_prepare /\
  In ("gt_info", "scene_gt_info.json") standard_files_to_prepare /\
  (src_name_with_suffix "gt" "info" = "scene_gt_info.json" <->
   "gt" = "gt" /\ "info" = "info" /\
   "scene_gt_info.json" = "scene_gt_info.json").
Proof.
  split; [simpl; auto|]. split; [simpl; auto|].
  apply (sensor_name_is_standard_name "gt" "scene_gt.json" "gt_info"
           "scene_gt_info.json" "info"); simpl; auto.
Defined.

Lemma path_join_ne scene_path n1 n2 :
  starts_with_sep n1 = false -> starts_with_sep n2 = false ->
  n1 <> n2 -> path_join scene_path n1 <> path_join scene_path n2.
Proof.
  intros H1 H2 Hne Heq. apply Hne.
  rewrite <- (append_empty_r (path_join scene_path n1)) in Heq.
  apply path_join_inv in Heq; auto. now rewrite append_empty_r in Heq.
Qed.

(** A turn whose source is a regular file under another name than the
    destination, which is no directory: the file is copied. *)
Lemma turn_copies scene_path sensor_suffix key std_name st c :
  nonempty sensor_suffix = true ->
  path_join scene_path (src_name_with_suffix key sensor_suffix) <>
  path_join scene_path std_name ->
  r_fs st !! path_join scene_path (src_name_with_suffix key sensor_suffix) =
    Some (File c) ->
  isdir (r_fs st) (path_join scene_path std_name) = false ->
  prepare_file scene_path sensor_suffix key std_name st =
  Next (mk_rstate
          (<[path_join scene_path std_name := File c]> (r_fs st))
          (if String.eqb key "gt" then true else r_gt_prepared st)
          ((path_join scene_path (src_name_with_suffix key sensor_suffix),
            path_join scene_path std_name) :: r_copies st)).
Proof.
  intros Hne Hneq Hsrc Hdir. apply String.eqb_neq in Hneq.
  unfold prepare_file, actual_src_name, exists_, copy2, copy_target.
  rewrite Hne, Hsrc, Hdir, Hneq, Hdir. reflexivity.
Qed.

(** X14: with a sensor suffix, the three files of the sensor in place as
    regular files and no standard name taken by a directory, the resolver
    copies camera, gt and gt_info in this order, each standard file ends up
    with the text of the sensor's file, nothing else changes, and the call
    goes on with the ground truth marked as prepared. *)
Theorem all_sensor_files_are_copied fs scene_path sensor_suffix
    camera_text gt_text gt_info_text :
  let src key := path_join scene_path (src_name_with_suffix key sensor_suffix) in
  let dst_camera := path_join scene_path "scene_camera.json" in
  let dst_gt := path_join scene_path "scene_gt.json" in
  let dst_gt_info := path_join scene_path "scene_gt_info.json" in
  nonempty sensor_suffix = true ->
  fs !! src "camera" = Some (File camera_text) ->
  fs !! src "gt" = Some (File gt_text) ->
  fs !! src "gt_info" = Some (File gt_info_text) ->
  isdir fs dst_camera = false ->
  isdir fs dst_gt = false ->
  isdir fs dst_gt_info = false ->
  resolve scene_path sensor_suffix fs =
  Next (mk_rstate
          (<[dst_gt_info := File gt_info_text]>
             (<[dst_gt := File gt_text]>
                (<[dst_camera := File camera_text]> fs)))
          true
          [(src "gt_info", dst_gt_info); (src "gt", dst_gt);
           (src "camera", dst_camera)]).
Proof.
  intros src dst_camera dst_gt dst_gt_info Hne Hc Hg Hi Hdc Hdg Hdi.
  unfold src, dst_camera, dst_gt, dst_gt_info in *.
  assert (Hrel : forall key, starts_with_sep
                   (src_name_with_suffix key sensor_suffix) = false)
    by reflexivity.
  rewrite resolve_turns.
  rewrite (turn_copies _ _ "camera" _ _ camera_text); auto;
    [|apply path_join_ne; auto; discriminate].
  rewrite (turn_copies _ _ "gt" _ _ gt_text); auto;
    [ |apply path_join_ne; auto; discriminate
      |simpl; rewrite lookup_insert_ne; auto;
       apply path_join_ne; auto; discriminate
      |simpl; unfold isdir; rewrite lookup_insert_ne;
       [exact Hdg|apply path_join_ne; auto; discriminate]].
  rewrite (turn_copies _ _ "gt_info" _ _ gt_info_text); auto;
    [ |apply path_join_ne; auto; discriminate
      |simpl; rewrite !lookup_insert_ne; auto;
       apply path_join_ne; auto; discriminate
      |simpl; unfold isdir; rewrite !lookup_insert_ne;
       [exact Hdi|apply path_join_ne; auto; discriminate..]].
  simpl. rewrite andb_false_r. reflexivity.
Qed.

Lemma all_sensor_files_are_copied_witness :
  resolve "/d/ipd/test/000004" "cam1"
    (<["/d/ipd/test/000004/scene_gt_info_cam1.json" := File "{}"]> fs_suffixed)
  = Next (mk_rstate
            (<["/d/ipd/test/000004/scene_gt_info.json" := File "{}"]>
               (<["/d/ipd/test/000004/scene_gt.json" := File gt_example_text]>
                  (<["/d/ipd/test/000004/scene_camera.json" := File "{}"]>
                     (<["/d/ipd/test/000004/scene_gt_info_cam1.json"
                        := File "{}"]> fs_suffixed))))
            true
            [("/d/ipd/test/000004/scene_gt_info_cam1.json",
              "/d/ipd/test/000004/scene_gt_info.json");
             ("/d/ipd/test/000004/scene_gt_cam1.json",
              "/d/ipd/test/000004/scene_gt.json");
             ("/d/ipd/test/000004/scene_camera_cam1.json",
              "/d/ipd/test/000004/scene_camera.json")]).
Proof.
  apply (all_sensor_files_are_copied
           (<["/d/ipd/test/000004/scene_gt_info_cam1.json" := File "{}"]>
              fs_suffixed)
           "/d/ipd/test/000004" "cam1" "{}" gt_example_text "{}");
    reflexivity.
Defined.

(** X15: when the name of the sensor's ground truth is taken by a
    directory, the copy fails and the call ends at line 62, also when a
    standard ground truth is there, which is left as it was; nothing is
    loaded and no targets are written. *)
Theorem directory_as_sensor_ground_truth_aborts `{RT : PyRuntime} fs
    dataset_root dataset_name split scene_id_int sensor_suffix
    output_targets_filename :
  let scene_path := scene_path_of dataset_root dataset_name split scene_id_int in
  nonempty sensor_suffix = true ->
  isdir fs scene_path = true ->
  fs !! path_join scene_path (src_name_with_suffix "gt" sensor_suffix)
    = Some Dir ->
  exists st,
    resolve scene_path sensor_suffix fs = Return GtCopyFailed st /\
    setup_scene_files_and_targets fs dataset_root dataset_name split
      scene_id_int sensor_suffix output_targets_filename
    = (GtCopyFailed, r_fs st, r_copies st) /\
    r_fs st !! path_join scene_path "scene_gt.json"
    = fs !! path_join scene_path "scene_gt.json".
Proof.
  intros scene_path Hne Hdir Hsrc.
  assert (Hres : exists st,
             resolve scene_path sensor_suffix fs = Return GtCopyFailed st /\
             r_fs st !! path_join scene_path "scene_gt.json"
             = fs !! path_join scene_path "scene_gt.json").
  { rewrite resolve_turns.
    destruct (prepare_file_optional scene_path sensor_suffix "camera"
                "scene_camera.json" (mk_rstate fs false []) eq_refl)
      as (st1 & -> & _ & Hturn1).
    assert (Hframe1 : forall name,
               name = "scene_gt.json" \/
               name = src_name_with_suffix "gt" sensor_suffix ->
               r_fs st1 !! path_join scene_path name =
               fs !! path_join scene_path name).
    { intros name Hname. apply (turn_frame _ _ _ _ _ Hturn1).
      now apply (camera_target_ne_gt _ sensor_suffix). }
    exists st1. split; [|apply Hframe1; now left].
    unfold prepare_file, actual_src_name, exists_, copy2.
    rewrite Hne, Hframe1, Hsrc, gt_src_ne_dst by now right. reflexivity. }
  destruct Hres as (st & Hres & Hst). exists st.
  split; [exact Hres|]. split; [|exact Hst].
  unfold setup_scene_files_and_targets. fold scene_path.
  now rewrite Hdir, Hres.
Qed.

Lemma directory_as_sensor_ground_truth_aborts_witness :
  exists st,
    resolve "/d/ipd/test/000004" "cam1"
      (<["/d/ipd/test/000004/scene_gt_cam1.json" := Dir]> fs_stale_gt)
    = Return GtCopyFailed st /\
    @setup_scene_files_and_targets sample_runtime
      (<["/d/ipd/test/000004/scene_gt_cam1.json" := Dir]> fs_stale_gt)
      "/d" "ipd" "test" 4 "cam1" "targets_custom.json"
    = (GtCopyFailed, r_fs st, r_copies st) /\
    r_fs st !! "/d/ipd/test/000004/scene_gt.json"
    = (<["/d/ipd/test/000004/scene_gt_cam1.json" := Dir]> fs_stale_gt)
        !! "/d/ipd/test/000004/scene_gt.json".
Proof.
  apply (@directory_as_sensor_ground_truth_aborts sample_runtime
           (<["/d/ipd/test/000004/scene_gt_cam1.json" := Dir]> fs_stale_gt)
           "/d" "ipd" "test" 4 "cam1" "targets_custom.json"); reflexivity.
Defined.

(** X16: when the call ends with the targets written, the file at the
    output path holds the dump of exactly the records that aggregating the
    standard ground truth left by the resolver gives, and the path is the
    output file name joined to the dataset directory. *)
Theorem written_targets_are_the_aggregation `{RT : PyRuntime} fs dataset_root
    dataset_name split scene_id_int sensor_suffix output_targets_filename
    path targets fs' copies :
  let scene_path := scene_path_of dataset_root dataset_name split scene_id_int in
  setup_scene_files_and_targets fs dataset_root dataset_name split
    scene_id_int sensor_suffix output_targets_filename
  = (Written path targets, fs', copies) ->
  path = output_targets_path_of dataset_root dataset_name
           output_targets_filename /\
  fs' !! path = Some (File (json_dump targets)) /\
  isdir fs scene_path = true /\
  exists st scene_gt_data,
    resolve scene_path sensor_suffix fs = Next st /\
    copies = r_copies st /\
    load_gt (r_fs st) (final_gt_file_for_targets scene_path)
      = Some scene_gt_data /\
    aggregate scene_id_int scene_gt_data = Targets targets.
Proof.
  intros scene_path. unfold setup_scene_files_and_targets. fold scene_path.
  destruct (isdir fs scene_path); [|discriminate]. simpl negb. cbv iota.
  pose proof (resolve_cases fs scene_path sensor_suffix) as Hexit.
  destruct (resolve scene_path sensor_suffix fs) as [st|o st].
  - unfold generate_targets.
    destruct (load_gt (r_fs st) _) as [data|] eqn:Hload; [|discriminate].
    destruct (aggregate scene_id_int data) as [|e|ts] eqn:Hagg;
      try discriminate.
    unfold save_targets.
    destruct (makedirs (r_fs st) _) as [fs1|]; [|discriminate].
    unfold write_text.
    destruct (String.eqb _ ""); [discriminate|].
    destruct (isdir fs1 _); [discriminate|].
    intros [= <- <- <- <-].
    split; [reflexivity|]. split; [apply lookup_insert_eq|].
    split; [reflexivity|]. exists st, data. auto.
  - intros [= -> _ _]. destruct Hexit; discriminate.
Qed.

Lemma written_targets_are_the_aggregation_witness :
  let run :=
    @setup_scene_files_and_targets sample_runtime fs_suffixed "/d" "ipd" "test"
      4 "cam1" "targets_custom.json" in
  let targets := [mk_target 4 0 (PInt 5) 2; mk_target 4 0 (PInt 7) 1] in
  run = (Written "/d/ipd/targets_custom.json" targets, snd (fst run), snd run)
  /\
  "/d/ipd/targets_custom.json"
    = output_targets_path_of "/d" "ipd" "targets_custom.json" /\
  snd (fst run) !! "/d/ipd/targets_custom.json"
    = Some (File (sample_dump targets)) /\
  isdir fs_suffixed (scene_path_of "/d" "ipd" "test" 4) = true /\
  exists st scene_gt_data,
    resolve (scene_path_of "/d" "ipd" "test" 4) "cam1" fs_suffixed = Next st /\
    snd run = r_copies st /\
    @load_gt sample_runtime (r_fs st)
      (final_gt_file_for_targets (scene_path_of "/d" "ipd" "test" 4))
      = Some scene_gt_data /\
    @aggregate sample_runtime 4 scene_gt_data = Targets targets.
Proof.
  intros run targets.
  assert (Hrun : run = (Written "/d/ipd/targets_custom.json" targets,
                        snd (fst run), snd run))
    by (vm_compute; reflexivity).
  split; [exact Hrun|].
  exact (@written_targets_are_the_aggregation sample_runtime fs_suffixed "/d"
           "ipd" "test" 4 "cam1" "targets_custom.json"
           "/d/ipd/targets_custom.json" targets (snd (fst run)) (snd run)
           Hrun).
Defined.

End SceneExtras.

(** ** The name of the scene directory *)

Module ScenePath.
Import Py FS Scene SceneFacts SceneExtras.

Lemma digit_is_plain c :
  is_digit c = true ->
  is_space c = false /\ is_underscore c = false /\
  (nat_of_ascii c =? 43)%nat = false /\ (nat_of_ascii c =? 45)%nat = false.
Proof.
  destruct c as [b0 b1 b2 b3 b4 b5 b6 b7].
  destruct b0, b1, b2, b3, b4, b5, b6, b7; intros H; try discriminate H;
    repeat split; reflexivity.
Qed.

Lemma digit_is_ascii c :
  is_digit c = true -> (N_of_ascii c <? 128)%N = true.
Proof.
  destruct c as [b0 b1 b2 b3 b4 b5 b6 b7].
  destruct b0, b1, b2, b3, b4, b5, b6, b7; intros H; try discriminate H;
    reflexivity.
Qed.

Lemma digits_are_ascii l :
  forallb is_digit l = true -> is_ascii_text l = true.
Proof.
  unfold is_ascii_text. induction l as [|c l IH]; [reflexivity|].
  simpl. intros H. apply andb_prop in H as [Hc H].
  now rewrite (digit_is_ascii c Hc), (IH H).
Qed.

(** An ASCII text is read without the Unicode tables. *)
Lemma py_int_text_ascii isspace todecimal m s :
  is_ascii_text (list_ascii_of_string s) = true ->
  py_int_text isspace todecimal m s = py_int m s.
Proof. intros H. unfold py_int_text, py_int. now rewrite H. Qed.

(** On digits alone the scanner reads the decimal number. *)
Lemma scan_all_digits l :
  forallb is_digit l = true ->
  forall acc k,
    scan_digits l false acc k =
    Some (fold_left (fun a c => 10 * a + digit_value c) l acc,
          (k + length l)%nat, []).
Proof.
  induction l as [|c l IH]; intros H acc k.
  - simpl. now rewrite Nat.add_0_r.
  - simpl in H. apply andb_prop in H as [Hc H].
    destruct (digit_is_plain c Hc) as (_ & Hu & _).
    replace (k + length (c :: l))%nat with (S k + length l)%nat
      by (simpl; lia).
    simpl. now rewrite Hu, Hc, (IH H).
Qed.

(** A run of digits, with or without a minus sign in front, is read as the
    number it writes, unless the digit limit [m] of the runtime is exceeded. *)
Lemma py_int_of_digits_limit m l :
  l <> [] -> forallb is_digit l = true ->
  ((max_str_digits_threshold <? length l) && (0 <? m)
   && (m <? length l))%nat = false ->
  py_int_list m l = Some (fold_left (fun a c => 10 * a + digit_value c) l 0) /\
  py_int_list m ("-"%char :: l) =
    Some (- fold_left (fun a c => 10 * a + digit_value c) l 0).
Proof.
  destruct l as [|c l]; [congruence|]. intros _ H Hlim.
  pose proof (scan_all_digits _ H 0 0%nat) as Hscan.
  change (0 + length (c :: l))%nat with (length (c :: l)) in Hscan.
  simpl in H. apply andb_prop in H as [Hc H].
  destruct (digit_is_plain c Hc) as (Hsp & Hu & Hplus & Hminus).
  unfold py_int_list. split.
  - simpl skip_spaces. rewrite Hsp. cbv beta iota zeta.
    rewrite Hplus, Hminus. cbv beta iota zeta.
    rewrite Hu, Hscan. cbv beta iota zeta.
    rewrite Hlim. reflexivity.
  - change (skip_spaces ("-"%char :: c :: l)) with ("-"%char :: c :: l).
    cbv beta iota zeta.
    change (nat_of_ascii "-" =? 43)%nat with false.
    change (nat_of_ascii "-" =? 45)%nat with true.
    cbv beta iota zeta. rewrite Hu, Hscan. cbv beta iota zeta.
    rewrite Hlim. reflexivity.
Qed.

Lemma py_int_of_digits l :
  l <> [] -> forallb is_digit l = true ->
  py_int_list 0 l = Some (fold_left (fun a c => 10 * a + digit_value c) l 0) /\
  py_int_list 0 ("-"%char :: l) =
    Some (- fold_left (fun a c => 10 * a + digit_value c) l 0).
Proof.
  intros Hne H. apply py_int_of_digits_limit; auto.
  now rewrite andb_false_r.
Qed.

(** X18: a key made of one to 640 decimal digits, leading zeros allowed, is
    taken as the number it writes, and with a minus sign in front as its
    negative, whatever the digit limit of the runtime is. *)
Theorem digit_key_is_accepted `{RT : PyRuntime} digits :
  digits <> "" ->
  forallb is_digit (list_ascii_of_string digits) = true ->
  (String.length digits <= 640)%nat ->
  Aggregator.int_of_key digits =
    Some (fold_left (fun a c => 10 * a + digit_value c)
            (list_ascii_of_string digits) 0) /\
  Aggregator.int_of_key (String "-" digits) =
    Some (- fold_left (fun a c => 10 * a + digit_value c)
              (list_ascii_of_string digits) 0).
Proof.
  intros Hne Hd Hlen. unfold Aggregator.int_of_key.
  rewrite !py_int_text_ascii;
    [|simpl; now apply digits_are_ascii|now apply digits_are_ascii].
  unfold py_int.
  assert (Hl : length (list_ascii_of_string digits) = String.length digits).
  { clear. induction digits as [|c s IH]; simpl; [reflexivity|now rewrite IH]. }
  apply py_int_of_digits_limit; auto.
  - destruct digits; [congruence|discriminate].
  - rewrite Hl. unfold max_str_digits_threshold.
    assert (H : (640 <? String.length digits)%nat = false)
      by (apply Nat.ltb_ge; lia).
    now rewrite H.
Qed.

Lemma digit_key_is_accepted_witness :
  @Aggregator.int_of_key Samples.sample_runtime "0017" = Some 17 /\
  @Aggregator.int_of_key Samples.sample_runtime "-0017" = Some (-17).
Proof.
  apply (@digit_key_is_accepted Samples.sample_runtime "0017");
    [discriminate|reflexivity|simpl; lia].
Defined.

Lemma list_of_append a b :
  list_ascii_of_string (a +:+ b) =
  list_ascii_of_string a ++ list_ascii_of_string b.
Proof.
  induction a as [|x a IH]; [reflexivity|].
  rewrite append_cons. simpl. now rewrite IH.
Qed.

Lemma zeros_digits k :
  forallb is_digit (list_ascii_of_string (zeros k)) = true /\
  fold_left (fun a c => 10 * a + digit_value c)
    (list_ascii_of_string (zeros k)) 0 = 0 /\
  String.length (zeros k) = k.
Proof.
  induction k as [|k (IH1 & IH2 & IH3)]; [repeat split; reflexivity|].
  split; [exact IH1|]. split; [exact IH2|].
  simpl. now rewrite IH3.
Qed.

Lemma uint_digits d :
  forallb is_digit (list_ascii_of_string (NilEmpty.string_of_uint d)) = true.
Proof. induction d; simpl; auto. Qed.

Lemma uint_value_acc d : forall acc,
  fold_left (fun a c => 10 * a + digit_value c)
    (list_ascii_of_string (NilEmpty.string_of_uint d)) (Z.pos acc) =
  Z.pos (Pos.of_uint_acc d acc).
Proof.
  induction d; intros acc; simpl; [reflexivity|..];
    rewrite <- IHd; f_equal; unfold digit_value; simpl; lia.
Qed.

Lemma uint_value d :
  fold_left (fun a c => 10 * a + digit_value c)
    (list_ascii_of_string (NilEmpty.string_of_uint d)) 0 =
  Z.of_N (Pos.of_uint d).
Proof.
  induction d; simpl; [reflexivity|exact IHd|..];
    unfold digit_value; simpl; apply uint_value_acc.
Qed.

Lemma decimal_value n :
  fold_left (fun a c => 10 * a + digit_value c)
    (list_ascii_of_string (decimal n)) 0 = Z.of_N n.
Proof.
  unfold decimal. rewrite uint_value.
  change (Pos.of_uint (N.to_uint n)) with (N.of_uint (N.to_uint n)).
  now rewrite DecimalN.Unsigned.of_to.
Qed.

Lemma decimal_nonempty n : list_ascii_of_string (decimal n) <> [].
Proof.
  unfold decimal. destruct n as [|p]; [discriminate|].
  simpl. pose proof (DecimalPos.Unsigned.to_uint_nonnil p) as Hp.
  destruct (Pos.to_uint p); [congruence|discriminate..].
Qed.

(** What [format_06d] writes is a sign, if any, and digits that read as the
    number. *)
Lemma format_06d_digits n :
  exists l,
    l <> [] /\ forallb is_digit l = true /\
    fold_left (fun a c => 10 * a + digit_value c) l 0 = Z.abs n /\
    list_ascii_of_string (format_06d n) =
      if n <? 0 then "-"%char :: l else l.
Proof.
  set (ds := decimal (Z.abs_N n)).
  assert (Hl : forall k,
             let l := list_ascii_of_string (zeros k)
                      ++ list_ascii_of_string ds in
             l <> [] /\ forallb is_digit l = true /\
             fold_left (fun a c => 10 * a + digit_value c) l 0 = Z.abs n).
  { intros k. destruct (zeros_digits k) as (Hz1 & Hz2 & _). simpl.
    split; [|split].
    - intros H. apply app_eq_nil in H as [_ H].
      now apply decimal_nonempty in H.
    - rewrite forallb_app, Hz1. apply uint_digits.
    - rewrite fold_left_app, Hz2. unfold ds. rewrite decimal_value.
      apply N2Z.inj_abs_N. }
  unfold format_06d. fold ds. destruct (n <? 0).
  - exists (list_ascii_of_string (zeros (5 - String.length ds))
            ++ list_ascii_of_string ds).
    destruct (Hl (5 - String.length ds)%nat) as (H1 & H2 & H3).
    repeat split; auto.
    change ("-" +:+ zeros (5 - String.length ds) +:+ ds)
      with (String "-" (zeros (5 - String.length ds) +:+ ds)).
    simpl. now rewrite list_of_append.
  - exists (list_ascii_of_string (zeros (6 - String.length ds))
            ++ list_ascii_of_string ds).
    destruct (Hl (6 - String.length ds)%nat) as (H1 & H2 & H3).
    repeat split; auto. now rewrite list_of_append.
Qed.

(** X17: the name of the scene directory is at least six characters long
    and reads back, with [int], as the scene id it was made from, so two
    scene ids never share a directory name. *)
Theorem scene_directory_name_determines_scene n :
  py_int 0 (format_06d n) = Some n /\
  (6 <= String.length (format_06d n))%nat /\
  forall m, format_06d m = format_06d n -> m = n.
Proof.
  assert (Hback : forall z, py_int 0 (format_06d z) = Some z).
  { intros z. unfold py_int.
    destruct (format_06d_digits z) as (l & Hne & Hd & Hv & ->).
    destruct (py_int_of_digits l Hne Hd) as [Hpos Hneg].
    destruct (z <? 0) eqn:Hz.
    - rewrite Hneg, Hv. f_equal. apply Z.ltb_lt in Hz. lia.
    - rewrite Hpos, Hv. f_equal. apply Z.ltb_ge in Hz. lia. }
  split; [apply Hback|]. split.
  - unfold format_06d.
    destruct (n <? 0);
      rewrite !length_append, (proj2 (proj2 (zeros_digits _)));
      change (String.length "-") with 1%nat; lia.
  - intros m H. pose proof (Hback m) as Hm. rewrite H, Hback in Hm.
    now injection Hm.
Qed.

End ScenePath.

(** ** Keys that are not plain digits *)

Module KeyText.
Import Py Aggregator ScenePath Samples.




(** X24: a key written in decimal digits of another script is an integer:
    with the table entries every interpreter has for the Arabic-Indic
    digits one and two, the key of these two digits is image 12. *)
Theorem unicode_digits_are_read `{RT : PyRuntime} scene anns :
  unicode_isspace 1633 = false ->
  unicode_isspace 1634 = false ->
  unicode_todecimal 1633 = Some 1%N ->
  unicode_todecimal 1634 = Some 2%N ->
  int_of_key arabic_twelve = Some 12 /\
  entry_targets scene (arabic_twelve, PList anns) =
    bind (count_annotations arabic_twelve anns [])
         (fun c => Ok (counter_targets scene 12 c)).
Proof.
  intros Hs1 Hs2 Hd1 Hd2.
  assert (Hk : int_of_key arabic_twelve = Some 12).
  { unfold int_of_key, py_int_text.
    change (is_ascii_text (list_ascii_of_string arabic_twelve)) with false.
    change (code_points (list_ascii_of_string arabic_twelve))
      with (Some [1633%N; 1634%N]).
    cbv beta iota.
    unfold transform_decimal_and_space.
    change (1633 <? 127)%N with false. change (1634 <? 127)%N with false.
    cbv beta iota. rewrite Hs1, Hs2, Hd1, Hd2. reflexivity. }
  split; [exact Hk|].
  unfold entry_targets. simpl fst. simpl snd. now rewrite Hk.
Qed.

Lemma unicode_digits_are_read_witness :
  @int_of_key sample_runtime arabic_twelve = Some 12 /\
  @entry_targets sample_runtime 4 (arabic_twelve, PList [ann (PInt 5)]) =
    Ok [mk_target 4 12 (PInt 5) 1].
Proof.
  apply (@unicode_digits_are_read sample_runtime 4 [ann (PInt 5)]);
    reflexivity.
Defined.

End KeyText.

(** ** The run as a whole *)

Module RunExtras.
Import FS Aggregator Scene Reference SceneReference AggregatorFacts SceneFacts.
Import AggregatorExtras SceneExtras Samples.

Lemma length_le_sum (l : list target) :
  (forall t, In t l -> 1 <= inst_count t) ->
  Z.of_nat (length l) <= sum_inst_count l.
Proof.
  unfold sum_inst_count. induction l as [|t l IH]; intros H; [simpl; lia|].
  assert (1 <= inst_count t) by (apply H; now left).
  assert (Z.of_nat (length l) <= fold_right Z.add 0 (map inst_count l))
    by (apply IH; intros; apply H; now right).
  simpl length. simpl map. simpl fold_right. lia.
Qed.

(** X20: there are at most as many records as valid annotations in the
    items that are not skipped, and the list of targets is empty (the case
    of the warning of line 118) exactly when there is no such annotation. *)
Theorem empty_targets_mean_no_annotation `{RT : PyRuntime} scene items
    targets :
  aggregate scene (PDict items) = Targets targets ->
  Z.of_nat (length targets) <= counted_annotations items /\
  (targets = [] <-> counted_annotations items = 0).
Proof.
  unfold aggregate. intros H.
  destruct (targets_loop scene items []) as [out|] eqn:Hl; [|discriminate].
  injection H as <-.
  pose proof (targets_loop_sum _ _ _ _ Hl) as Hsum.
  change (sum_inst_count []) with 0 in Hsum.
  assert (Hlen : Z.of_nat (length out) <= sum_inst_count out).
  { apply length_le_sum. intros t Ht.
    destruct (targets_loop_observed _ _ _ _ _ Hl Ht) as [[]|[? _]]; auto. }
  split; [lia|]. split.
  - intros ->. change (sum_inst_count []) with 0 in Hsum. lia.
  - intros H0. destruct out; [reflexivity|].
    change (length (t :: out)) with (S (length out)) in Hlen. lia.
Qed.

Lemma empty_targets_mean_no_annotation_witness :
  @aggregate sample_runtime 4
    (PDict [("abc", PList [ann (PInt 9)]); ("1", PList [PInt 3])])
    = Targets [] /\
  Z.of_nat (length (@nil target)) <=
    @counted_annotations sample_runtime
      [("abc", PList [ann (PInt 9)]); ("1", PList [PInt 3])] /\
  (@nil target = [] <->
   @counted_annotations sample_runtime
     [("abc", PList [ann (PInt 9)]); ("1", PList [PInt 3])] = 0).
Proof.
  split; [reflexivity|].
  apply (@empty_targets_mean_no_annotation sample_runtime 4
           [("abc", PList [ann (PInt 9)]); ("1", PList [PInt 3])] []).
  reflexivity.
Defined.

(** X19: unless the call reaches the writing of the targets, it leaves
    the file system as the resolver left it (as it found it, when the scene
    directory is missing): every return before line 120 and the uncaught
    exception write nothing, and every path that is no standard path of the
    scene is as it was. *)
Theorem early_exits_write_nothing `{RT : PyRuntime} fs dataset_root
    dataset_name split scene_id_int sensor_suffix output_targets_filename
    o fs' copies :
  let scene_path := scene_path_of dataset_root dataset_name split scene_id_int in
  setup_scene_files_and_targets fs dataset_root dataset_name split
    scene_id_int sensor_suffix output_targets_filename = (o, fs', copies) ->
  (forall path targets, o <> Written path targets) ->
  (forall targets, o <> WriteFailed targets) ->
  fs' = (if isdir fs scene_path
         then r_fs (state_of (resolve scene_path sensor_suffix fs))
         else fs) /\
  forall p, ~ at_standard_path scene_path p -> fs' !! p = fs !! p.
Proof.
  intros scene_path Hrun Hw Hf.
  assert (Hfs : fs' = (if isdir fs scene_path
                       then r_fs (state_of (resolve scene_path sensor_suffix fs))
                       else fs)).
  { revert Hrun. unfold setup_scene_files_and_targets. fold scene_path.
    destruct (isdir fs scene_path); [|now intros [= _ <- _]].
    simpl negb. cbv iota.
    destruct (resolve scene_path sensor_suffix fs) as [st|o' st];
      [|now intros [= _ <- _]].
    simpl state_of. unfold generate_targets.
    destruct (load_gt (r_fs st) _) as [data|]; [|now intros [= _ <- _]].
    destruct (aggregate scene_id_int data) as [|e|ts];
      try now intros [= _ <- _].
    unfold save_targets.
    destruct (makedirs (r_fs st) _) as [fs1|].
    - destruct (write_text fs1 _ _); intros [= <- _ _].
      + exfalso. exact (Hw _ _ eq_refl).
      + exfalso. exact (Hf _ eq_refl).
    - intros [= <- _ _]. exfalso. exact (Hf _ eq_refl). }
  split; [exact Hfs|]. intros p Hp. rewrite Hfs.
  destruct (isdir fs scene_path); [|reflexivity].
  now apply resolve_effect.
Qed.

Lemma early_exits_write_nothing_witness :
  @setup_scene_files_and_targets sample_runtime fs_standard "/d" "ipd" "test" 4
    "" "targets_custom.json" = (GtNotADict, fs_standard, []) /\
  fs_standard =
    (if isdir fs_standard (scene_path_of "/d" "ipd" "test" 4)
     then r_fs (state_of (resolve (scene_path_of "/d" "ipd" "test" 4) ""
                            fs_standard))
     else fs_standard) /\
  forall p,
    ~ at_standard_path (scene_path_of "/d" "ipd" "test" 4) p ->
    fs_standard !! p = fs_standard !! p.
Proof.
  split; [reflexivity|].
  apply (@early_exits_write_nothing sample_runtime fs_standard "/d" "ipd"
           "test" 4 "" "targets_custom.json" GtNotADict fs_standard []);
    [reflexivity|discriminate|discriminate].
Defined.

End RunExtras.
